(** * A private star-registry ledger: Block and Blockchain

    Shallow embedding of [src/block.js] and [src/blockchain.js].

    Conventions of the embedding.
    - JavaScript objects live in an object store ([objects]); the chain array
      holds references into it, so that a block returned to a caller and the
      block stored in the chain are one and the same object.
    - [null] is [None]; numbers are integers ([Z]), [NaN] is [None].
    - An exception is an [Error.t]; an [async] function returns a settled
      [Promise].  Every chain operation runs to completion (its continuations
      included) before the next one starts: the ledger has a single logical
      owner and no two operations interleave.
    - The external collaborators are parameters: the digest [SHA256], the
      signature primitive [verify], the payload codec [encode]/[decode] and
      the built-in [parseInt]. *)

From Stdlib Require Import ZArith String Ascii List Lia DecimalString.
From Stdlib Require Import DecimalPos DecimalZ.
From stdpp Require Import base list strings.

Open Scope Z_scope.
Open Scope string_scope.

(** ** JavaScript values *)

(** Decoded payloads, the values [JSON.parse] produces. *)
#[local] Set Warnings "-register-all".
Inductive json : Type :=
| JNull
| JBool (b : bool)
| JNum (n : Z)
| JStr (s : string)
| JArr (items : list json)
| JObj (props : list (string * json)).

(** [data.owner]: own property lookup; anything but an object has none. *)
Fixpoint assoc (k : string) (props : list (string * json)) : option json :=
  match props with
  | [] => None
  | (k', v) :: rest => if bool_decide (k' = k) then Some v else assoc k rest
  end.

Definition get_prop (k : string) (v : json) : option json :=
  match v with
  | JObj props => assoc k props
  | _ => None
  end.

(** Truthiness of a decoded value, as the [&&] of the star lookup sees it. *)
Definition truthy (v : json) : bool :=
  match v with
  | JNull => false
  | JBool b => b
  | JNum n => negb (n =? 0)%Z
  | JStr s => negb (bool_decide (s = ""))
  | JArr _ | JObj _ => true
  end.

(** [v === s] for a string [s]; [v] is [None] when the property is missing. *)
Definition strict_eq_string (v : option json) (s : string) : bool :=
  match v with
  | Some (JStr s') => bool_decide (s' = s)
  | _ => false
  end.

(** [n.toString()] for an integer number. *)
Definition Number_toString (n : Z) : string :=
  NilZero.string_of_int (Z.to_int n).

Module Error.

Record t : Type := mk { name : string; message : string }.

(** [new Error(msg)]. *)
Definition new (msg : string) : t := mk "Error" msg.

(** [String(err)]. *)
Definition toString (e : t) : string :=
  if bool_decide (message e = "") then name e
  else name e +:+ ": " +:+ message e.

(** [new Error(err)] for a caught [err]: the message is [String(err)]. *)
Definition wrap (e : t) : t := new (toString e).

End Error.

Inductive Completion (A : Type) : Type :=
| Normal (a : A)
| Throw (e : Error.t).
Arguments Normal {A} a.
Arguments Throw {A} e.

Inductive Promise (A : Type) : Type :=
| Fulfilled (a : A)
| Rejected (e : Error.t).
Arguments Fulfilled {A} a.
Arguments Rejected {A} e.

(** A promise is an object, and every object is truthy. *)
Definition truthy_object {A : Type} (p : Promise A) : bool := true.

(** ** [JSON.stringify] of strings *)

Definition dquote : ascii := ascii_of_nat 34.
Definition backslash : ascii := ascii_of_nat 92.

Definition hex_digit (n : nat) : ascii :=
  ascii_of_nat (if (n <? 10)%nat then 48 + n else 87 + n)%nat.

(** One code unit of a quoted JSON string. *)
Definition escape_char (c : ascii) (rest : string) : string :=
  let n := nat_of_ascii c in
  if (n =? 34)%nat then String backslash (String dquote rest)
  else if (n =? 92)%nat then String backslash (String backslash rest)
  else if (n =? 8)%nat then String backslash (String "b" rest)
  else if (n =? 9)%nat then String backslash (String "t" rest)
  else if (n =? 10)%nat then String backslash (String "n" rest)
  else if (n =? 12)%nat then String backslash (String "f" rest)
  else if (n =? 13)%nat then String backslash (String "r" rest)
  else if (n <? 32)%nat then
    String backslash (String "u" (String "0" (String "0"
      (String (hex_digit (n / 16)) (String (hex_digit (n mod 16)) rest)))))
  else String c rest.

Fixpoint escape (s : string) : string :=
  match s with
  | EmptyString => EmptyString
  | String c s' => escape_char c (escape s')
  end.

Definition JSON_quote (s : string) : string :=
  String dquote (escape s +:+ String dquote EmptyString).

(** A property that holds a string or [null]. *)
Definition JSON_string_or_null (o : option string) : string :=
  match o with
  | None => "null"
  | Some s => JSON_quote s
  end.

Definition JSON_key (k : string) : string :=
  String dquote (k +:+ String dquote ":").

(** ** Block *)

Module Block.

Record t : Type := mk {
  hash : option string;
  height : Z;
  body : string;
  time : Z;
  previousBlockHash : option string
}.

Definition set_hash (h : option string) (b : t) : t :=
  mk h (height b) (body b) (time b) (previousBlockHash b).
Definition set_height (n : Z) (b : t) : t :=
  mk (hash b) n (body b) (time b) (previousBlockHash b).
Definition set_time (n : Z) (b : t) : t :=
  mk (hash b) (height b) (body b) n (previousBlockHash b).
Definition set_body (s : string) (b : t) : t :=
  mk (hash b) (height b) s (time b) (previousBlockHash b).

(** [JSON.stringify(block)]: own properties in creation order. *)
Definition JSON_stringify (b : t) : string :=
  "{" +:+ JSON_key "hash" +:+ JSON_string_or_null (hash b) +:+
  "," +:+ JSON_key "height" +:+ Number_toString (height b) +:+
  "," +:+ JSON_key "body" +:+ JSON_quote (body b) +:+
  "," +:+ JSON_key "time" +:+ Number_toString (time b) +:+
  "," +:+ JSON_key "previousBlockHash" +:+
  JSON_string_or_null (previousBlockHash b) +:+ "}".

Section Methods.

(** [SHA256(s).toString()] of crypto-js. *)
Variable SHA256 : string -> string.
(** [Buffer.from(JSON.stringify(data)).toString("hex")]. *)
Variable encode : json -> string.
(** [JSON.parse(hex2ascii(body))], or the exception it throws. *)
Variable decode : string -> Completion json.

Definition constructor (data : json) : t :=
  {| hash := None;
     height := 0;
     body := encode data;
     time := 0;
     previousBlockHash := None |}.

(** [validate()]: the promise it returns and the block it leaves behind.
    Serialising and hashing a block of this type cannot fail, so the [catch]
    clause is never entered.  The variant of [block.js] that builds its
    promises by hand assigns and resolves in the same way. *)
Definition validate (self : t) : Promise bool * t :=
  let currentBlockHash := hash self in
  let currentBlockHashStringified := JSON_stringify self in
  let newBlockHash := SHA256 currentBlockHashStringified in
  let self' := set_hash (Some newBlockHash) self in
  (Fulfilled (bool_decide (currentBlockHash = Some newBlockHash)), self').

Definition genesis_marker : json := JStr "** Genesis Block **".

(** [getBData()]. *)
Definition getBData (self : t) : Promise json :=
  match decode (body self) with
  | Normal decodedData =>
      if (height self =? 0)%Z then Fulfilled genesis_marker
      else Fulfilled decodedData
  | Throw err => Rejected (Error.wrap err)
  end.

End Methods.

End Block.

#[global] Instance Block_inhabited : Inhabited Block.t :=
  populate (Block.mk None 0 "" 0 None).

(** ** The object store and the Blockchain object

    [objects] holds every [Block] object created so far; a reference is its
    position.  [chain] and [height] are the two fields of the Blockchain. *)

Abbreviation Ref := nat.

Record World : Type := mkWorld {
  objects : list Block.t;
  chain : list Ref;
  height : Z
}.

Definition set_objects (f : list Block.t -> list Block.t) (w : World) : World :=
  mkWorld (f (objects w)) (chain w) (height w).
Definition set_chain (f : list Ref -> list Ref) (w : World) : World :=
  mkWorld (objects w) (f (chain w)) (height w).
Definition set_height (f : Z -> Z) (w : World) : World :=
  mkWorld (objects w) (chain w) (f (height w)).

(** Computations that read and write the world and may throw. *)
Definition JS (A : Type) : Type := World -> Completion A * World.

Definition ret {A : Type} (a : A) : JS A := fun w => (Normal a, w).

Definition bind {A B : Type} (m : JS A) (k : A -> JS B) : JS B :=
  fun w =>
    match m w with
    | (Normal a, w') => k a w'
    | (Throw e, w') => (Throw e, w')
    end.

Definition throw {A : Type} (e : Error.t) : JS A := fun w => (Throw e, w).

Definition try_catch {A : Type} (m : JS A) (handler : Error.t -> JS A) : JS A :=
  fun w =>
    match m w with
    | (Normal a, w') => (Normal a, w')
    | (Throw e, w') => handler e w'
    end.

(** The body of an [async] function settles the promise it returns. *)
Definition async {A : Type} (m : JS A) : JS (Promise A) :=
  fun w =>
    match m w with
    | (Normal a, w') => (Normal (Fulfilled a), w')
    | (Throw e, w') => (Normal (Rejected e), w')
    end.

Definition await {A : Type} (p : Promise A) : JS A :=
  match p with
  | Fulfilled a => ret a
  | Rejected e => throw e
  end.

Definition gets {A : Type} (f : World -> A) : JS A := fun w => (Normal (f w), w).
Definition modify (f : World -> World) : JS unit := fun w => (Normal tt, f w).

Declare Scope js_scope.
Delimit Scope js_scope with js.
Notation "x <- m ;; k" := (bind m (fun x => k))
  (at level 100, m at next level, right associativity) : js_scope.
Notation "m ;;; k" := (bind m (fun _ => k))
  (at level 100, right associativity) : js_scope.

(** [new C(...)], a property read and a property write through a reference. *)
Definition alloc (b : Block.t) : JS Ref :=
  fun w => (Normal (length (objects w)), set_objects (fun os => (os ++ [b])%list) w).
Definition read (r : Ref) : JS Block.t := gets (fun w => objects w !!! r).
Definition update (r : Ref) (f : Block.t -> Block.t) : JS unit :=
  modify (set_objects (fun os => <[r := f (os !!! r)]> os)).

(** [array.forEach((x, index) => ...)], with the callback's local state. *)
Fixpoint forEach {A St : Type} (f : St -> A -> nat -> JS St)
    (l : list A) (index : nat) (acc : St) : JS St :=
  match l with
  | [] => ret acc
  | x :: l' => bind (f acc x index) (forEach f l' (S index))
  end.

(** [array[i]]: [undefined] out of range. *)
Definition array_get {A : Type} (l : list A) (i : Z) : option A :=
  if (i <? 0)%Z then None else l !! Z.to_nat i.

(** [`${v}`] for a string or [null]. *)
Definition template (o : option string) : string :=
  match o with
  | None => "null"
  | Some s => s
  end.

(** [s.split(sep)] for a one-character separator. *)
Fixpoint split (sep : ascii) (s : string) : list string :=
  match s with
  | EmptyString => [EmptyString]
  | String c s' =>
      if Ascii.eqb c sep then EmptyString :: split sep s'
      else match split sep s' with
           | [] => [String c EmptyString]
           | field :: fields => String c field :: fields
           end
  end.

(** [s.slice(0, -k)]. *)
Definition slice_0_neg (k : nat) (s : string) : string :=
  substring 0 (String.length s - k) s.

(** Arithmetic on numbers that may be [NaN]. *)
Definition num_sub (a b : option Z) : option Z :=
  match a, b with
  | Some x, Some y => Some (x - y)
  | _, _ => None
  end.
Definition num_lt (a b : option Z) : bool :=
  match a, b with
  | Some x, Some y => (x <? y)%Z
  | _, _ => false
  end.

(** An argument where a string is expected: a string, or [undefined] when
    the caller leaves it out. *)
Inductive Arg : Type :=
| Str (s : string)
| Undefined.

(** ** Blockchain *)

Module Blockchain.

Section Methods.

(** [SHA256(s).toString()] of crypto-js. *)
Variable SHA256 : string -> string.
(** The payload codec of [Block]. *)
Variable encode : json -> string.
Variable decode : string -> Completion json.
(** [bitcoinMessage.verify(message, address, signature)]; it may throw. *)
Variable verify : string -> string -> string -> Completion bool.
(** The built-in [parseInt], [None] for [NaN]. *)
Variable parseInt : string -> option Z.

(** [block.validate()] on a stored block. *)
Definition call_validate (block : Ref) : JS (Promise bool) :=
  (b <- read block ;;
   let (p, b') := Block.validate SHA256 b in
   update block (fun _ => b') ;;;
   ret p)%js.

Definition hashMismatchError (index : nat) (block previousBlock : Block.t) : string :=
  "Block " +:+ Number_toString (Z.of_nat index) +:+
  " Hash Mismatch :: PreviousBlockHash " +:+
  template (Block.previousBlockHash block) +:+
  ", Required PreviousBlockHash " +:+ template (Block.hash previousBlock).

Definition blockInvalidError (index : nat) (block : Block.t) : string :=
  "Block " +:+ Number_toString (Z.of_nat index) +:+
  " Invalid :: Hash (" +:+ template (Block.hash block) +:+ ")".

(** Reading [.hash] of [undefined]. *)
Definition TypeError_undefined : Error.t :=
  Error.mk "TypeError" "Cannot read properties of undefined (reading 'hash')".

(** The callback of [validateChain]'s [forEach]. *)
Definition validateChain_callback (errorLog : list string) (block : Ref)
    (index : nat) : JS (list string) :=
  (b <- read block ;;
   if (0 <? Block.height b)%Z then
     c <- gets chain ;;
     match array_get c (Z.of_nat index - 1) with
     | None => throw TypeError_undefined
     | Some previousBlock =>
         pb <- read previousBlock ;;
         let errorLog1 :=
           if negb (bool_decide (Block.previousBlockHash b = Block.hash pb))
           then (errorLog ++ [hashMismatchError index b pb])%list
           else errorLog in
         p <- call_validate block ;;
         if negb (truthy_object p) then
           b' <- read block ;;
           ret (errorLog1 ++ [blockInvalidError index b'])%list
         else ret errorLog1
     end
   else ret errorLog)%js.

Definition validateChain : JS (Promise (list string)) :=
  async (try_catch
    (c <- gets chain ;;
     forEach validateChain_callback c 0%nat [])%js
    (fun err => throw (Error.new "Could not validate chain."))).

(** [_addBlock(block)]; [now] is what [Date.now()] returns. *)
Definition _addBlock (block : Ref) (now : Z) : JS (Promise (option Ref)) :=
  async (try_catch
    (len <- gets (fun w => length (chain w)) ;;
     update block (Block.set_height (Z.of_nat len)) ;;;
     update block (Block.set_time now) ;;;
     b <- read block ;;
     update block (Block.set_hash (Some (SHA256 (Block.JSON_stringify b)))) ;;;
     p <- validateChain ;;
     errors <- await p ;;
     if (length errors =? 0)%nat then
       modify (set_chain (fun c => (c ++ [block])%list)) ;;;
       modify (set_height (fun h => h + 1)) ;;;
       ret (Some block)
     else ret None)%js
    (fun err => throw (Error.wrap err))).

Definition genesis_data : json := JObj [("data", JStr "Genesis Block")].

Definition initializeChain (now : Z) : JS (Promise unit) :=
  async
    (h <- gets height ;;
     if (h =? -1)%Z then
       block <- alloc (Block.constructor encode genesis_data) ;;
       p <- _addBlock block now ;;
       _ <- await p ;;
       ret tt
     else ret tt)%js.

(** [new Blockchain()] once the admission of the genesis block, which the
    constructor starts and does not wait for, has run to its end.  The state
    at the moment the constructor returns is [Schedule.constructor]. *)
Definition constructor (now : Z) : World :=
  snd (initializeChain now (mkWorld [] [] (-1))).

Definition getChainHeight : JS (Promise Z) := async (gets height).

(** [new Date().getTime().toString().slice(0, -3)] at clock reading [now]. *)
Definition seconds_text (now : Z) : string :=
  slice_0_neg 3 (Number_toString now).

Definition requestMessageOwnershipVerification (address : string) (now : Z)
  : JS (Promise string) :=
  async (ret (address +:+ ":" +:+ seconds_text now +:+ ":starRegistry")).

(** [message.split(":")[1]] as [parseInt] sees it. *)
Definition message_time_field (message : string) : string :=
  match split ":" message !! 1%nat with
  | Some field => field
  | None => "undefined"
  end.

Definition star_data (address : string) (star : json) : json :=
  JObj [("owner", JStr address); ("star", star)].

(** The [try] block of [submitStar]. *)
Definition submitStar_try (address message signature : string) (star : json)
    (currentTime passedTime : option Z) (now' : Z) : JS Ref :=
  let fiveMinutesInSeconds := 5 * 60 in
  if num_lt (num_sub currentTime passedTime) (Some fiveMinutesInSeconds) then
    match verify message address signature with
    | Throw err => throw err
    | Normal true =>
        (block <- alloc (Block.constructor encode (star_data address star)) ;;
         _ <- _addBlock block now' ;;
         ret block)%js
    | Normal false => throw (Error.new "Message could not be verified.")
    end
  else
    throw (Error.new
      "Time between current time and passed time needs to be less than 5 minutes.").

(** [submitStar(address, message, signature, star)] for a [message] that is
    a string, with the admission it starts run to its end; [now] is the
    clock reading of [new Date()], [now'] the later one of [_addBlock].
    [submitStar_call] below takes any [message] argument. *)
Definition submitStar (address message signature : string) (star : json)
    (now now' : Z) : JS (Promise Ref) :=
  let passedTime := parseInt (message_time_field message) in
  let currentTime := parseInt (seconds_text now) in
  async (try_catch
    (submitStar_try address message signature star currentTime passedTime now')
    (fun err => throw (Error.new "There was an issue submitting your star."))).

(** What [message.split(":")] throws when [message] is [undefined]. *)
Definition TypeError_split : Error.t :=
  Error.mk "TypeError" "Cannot read properties of undefined (reading 'split')".

(** The receiver of [message.split(":")]: a string has the method; reading
    it off [undefined] throws. *)
Definition split_receiver (message : Arg) : JS string :=
  match message with
  | Str m => ret m
  | Undefined => throw TypeError_split
  end.

(** [submitStar(address, message, signature, star)] for any [message]
    argument, statement by statement.  [message.split(":")] is evaluated
    first, outside the [try] block: what it throws rejects the promise of
    the [async] function as it is. *)
Definition submitStar_call (address : string) (message : Arg)
    (signature : string) (star : json) (now now' : Z) : JS (Promise Ref) :=
  async
    (m <- split_receiver message ;;
     let passedTime := parseInt (message_time_field m) in
     let currentTime := parseInt (seconds_text now) in
     try_catch
       (submitStar_try address m signature star currentTime passedTime now')
       (fun err => throw (Error.new "There was an issue submitting your star.")))%js.

Definition getBlockByHash (hash : string) : JS (Promise (list Ref)) :=
  async (try_catch
    (w <- gets id ;;
     ret (filter (fun block => Block.hash (objects w !!! block) = Some hash)
            (chain w)))%js
    (fun err => throw (Error.new "No block could be found with the provided hash."))).

(** [getBlockByHeight(height)]; [None] is [null]. *)
Definition getBlockByHeight (height : Z) : JS (Promise (option Ref)) :=
  async (try_catch
    (w <- gets id ;;
     let block :=
       filter (fun p => Block.height (objects w !!! p) = height) (chain w)
         !! 0%nat in
     ret (match block with
          | Some p => Some p
          | None => None
          end))%js
    (fun err => throw (Error.new "No block could be found with the provided height."))).

(** The continuation of the star lookup's callback, after its [await]. *)
Definition getStars_continue (address : string) (stars : list json)
    (settled : Promise json) : list json :=
  match settled with
  | Fulfilled data =>
      if truthy data && strict_eq_string (get_prop "owner" data) address
      then (stars ++ [data])%list
      else stars
  | Rejected _ => stars
  end.

(** [getStarsByWalletAddress(address)].  Each callback of the [forEach] runs
    up to its [await]; the continuations then run in chain order, before the
    caller sees [stars]. *)
Definition getStarsByWalletAddress (address : string) : JS (Promise (list json)) :=
  async (try_catch
    (w <- gets id ;;
     let pending :=
       map (fun block => Block.getBData decode (objects w !!! block)) (chain w) in
     ret (fold_left (getStars_continue address) pending []))%js
    (fun err => throw (Error.new
      "No stars could be found with the provided wallet address."))).

End Methods.

End Blockchain.

(** ** Calls and pending continuations

    An [async] function runs up to its first [await] when it is called; what
    follows the [await] runs later, as a microtask, in the order in which
    the continuations were queued.  [_addBlock] is the one function of the
    ledger that awaits before it is done, and neither the constructor
    (through [initializeChain]) nor [submitStar] waits for it.  A [System] is
    the world together with the continuations of [_addBlock] that are still
    to run.  The definitions of [Blockchain] above join each call to its
    continuation; those below keep them apart. *)

Inductive Task : Type :=
| ResumeAddBlock (block : Ref) (awaited : Promise (list string)).

Record System : Type := mkSystem {
  world : World;
  microtasks : list Task
}.

Module Schedule.

Section Calls.

Variable SHA256 : string -> string.
Variable encode : json -> string.
Variable verify : string -> string -> string -> Completion bool.
Variable parseInt : string -> option Z.

(** [_addBlock(block)] up to its [await]: the three assignments and the
    call of [validateChain()], whose promise is awaited. *)
Definition _addBlock_sync (block : Ref) (now : Z) : JS (Promise (list string)) :=
  (len <- gets (fun w => length (chain w)) ;;
   update block (Block.set_height (Z.of_nat len)) ;;;
   update block (Block.set_time now) ;;;
   b <- read block ;;
   update block (Block.set_hash (Some (SHA256 (Block.JSON_stringify b)))) ;;;
   Blockchain.validateChain SHA256)%js.

(** [_addBlock(block)] after its [await], with the promise it waited for. *)
Definition _addBlock_resume (block : Ref) (awaited : Promise (list string))
  : JS (Promise (option Ref)) :=
  async (try_catch
    (errors <- await awaited ;;
     if (length errors =? 0)%nat then
       modify (set_chain (fun c => (c ++ [block])%list)) ;;;
       modify (set_height (fun h => h + 1)) ;;;
       ret (Some block)
     else ret None)%js
    (fun err => throw (Error.wrap err))).

(** A call of [_addBlock(block)]: its first part runs, the rest is queued. *)
Definition call_addBlock (block : Ref) (now : Z) (s : System) : System :=
  match _addBlock_sync block now (world s) with
  | (Normal awaited, w) =>
      mkSystem w (microtasks s ++ [ResumeAddBlock block awaited])
  | (Throw _, w) => mkSystem w (microtasks s)
  end.

(** [new Block(data)]. *)
Definition new_Block (data : json) (s : System) : Ref * System :=
  (length (objects (world s)),
   mkSystem
     (set_objects (fun os => (os ++ [Block.constructor encode data])%list)
        (world s))
     (microtasks s)).

(** [_addBlock(new Block(data))]. *)
Definition call_addBlock_new (data : json) (now : Z) (s : System) : System :=
  let (block, s1) := new_Block data s in call_addBlock block now s1.

(** A call of [initializeChain()]; what follows its [await] does nothing. *)
Definition call_initializeChain (now : Z) (s : System) : System :=
  if (height (world s) =? -1)%Z
  then call_addBlock_new Blockchain.genesis_data now s
  else s.

(** [new Blockchain()], at the moment the constructor returns. *)
Definition constructor (now : Z) : System :=
  call_initializeChain now (mkSystem (mkWorld [] [] (-1)) []).

(** A call of [submitStar] with a string for [message]: the promise it
    returns is settled when the call returns; the admission it started is
    queued. *)
Definition call_submitStar (address message signature : string) (star : json)
    (now now' : Z) (s : System) : Promise Ref * System :=
  let passedTime := parseInt (Blockchain.message_time_field message) in
  let currentTime := parseInt (Blockchain.seconds_text now) in
  let fiveMinutesInSeconds := 5 * 60 in
  let failed := Rejected (Error.new "There was an issue submitting your star.") in
  if num_lt (num_sub currentTime passedTime) (Some fiveMinutesInSeconds) then
    match verify message address signature with
    | Throw err => (failed, s)
    | Normal true =>
        let (block, s1) := new_Block (Blockchain.star_data address star) s in
        (Fulfilled block, call_addBlock block now' s1)
    | Normal false => (failed, s)
    end
  else (failed, s).

(** A call of [validateChain()]: it has no [await] and runs at once. *)
Definition call_validateChain (s : System) : System :=
  mkSystem (snd (Blockchain.validateChain SHA256 (world s))) (microtasks s).

(** A call of [validate()] by a client on a block it was handed: it has no
    [await] either. *)
Definition call_validate (block : Ref) (s : System) : System :=
  mkSystem (snd (Blockchain.call_validate SHA256 block (world s)))
    (microtasks s).

(** The continuation at the head of the queue runs. *)
Definition run_microtask (s : System) : System :=
  match microtasks s with
  | [] => s
  | ResumeAddBlock block awaited :: rest =>
      mkSystem (snd (_addBlock_resume block awaited (world s))) rest
  end.

(** All pending continuations run, as they do before a caller that awaits
    goes on. *)
Fixpoint drain_tasks (tasks : list Task) (w : World) : World :=
  match tasks with
  | [] => w
  | ResumeAddBlock block awaited :: rest =>
      drain_tasks rest (snd (_addBlock_resume block awaited w))
  end.

Definition drain (s : System) : System :=
  mkSystem (drain_tasks (microtasks s) (world s)) [].

End Calls.

End Schedule.

(** * Vocabulary of the properties *)

(** ** Reading an escaped string back *)

Definition hex_value (c : ascii) : nat :=
  let n := nat_of_ascii c in
  if (n <? 58)%nat then (n - 48)%nat else (n - 87)%nat.

(** Reads back the first code unit of an escaped string. *)
Definition unescape_head (s : string) : option (ascii * string) :=
  match s with
  | EmptyString => None
  | String c rest =>
      if (nat_of_ascii c =? 92)%nat then
        match rest with
        | EmptyString => None
        | String d rest' =>
            let m := nat_of_ascii d in
            if (m =? 34)%nat then Some (dquote, rest')
            else if (m =? 92)%nat then Some (backslash, rest')
            else if (m =? 98)%nat then Some (ascii_of_nat 8, rest')
            else if (m =? 116)%nat then Some (ascii_of_nat 9, rest')
            else if (m =? 110)%nat then Some (ascii_of_nat 10, rest')
            else if (m =? 102)%nat then Some (ascii_of_nat 12, rest')
            else if (m =? 114)%nat then Some (ascii_of_nat 13, rest')
            else
              match rest' with
              | String _ (String _ (String h (String l rest''))) =>
                  Some (ascii_of_nat (16 * hex_value h + hex_value l), rest'')
              | _ => None
              end
        end
      else Some (c, rest)
  end.

(** ** Characters of a string *)

(** Every character of [s] passes [P]. *)
Fixpoint string_forall (P : ascii -> bool) (s : string) : bool :=
  match s with
  | EmptyString => true
  | String c s' => P c && string_forall P s'
  end.

(** The characters [n.toString()] is made of: digits and the sign. *)
Definition number_char (c : ascii) : bool :=
  let n := nat_of_ascii c in
  ((48 <=? n)%nat && (n <=? 57)%nat) || (n =? 45)%nat.

Definition is_not (sep : ascii) (c : ascii) : bool := negb (Ascii.eqb c sep).

(** ** Reading a chain *)

(** The heights of the blocks of the chain, in chain order. *)
Definition heights (s : System) : list Z :=
  map (fun r => Block.height (objects (world s) !!! r)) (chain (world s)).

(** ** Sample collaborators

    Concrete collaborators, simple enough to compute with, and two concrete
    chains. *)

(** A collision-free stand-in for the digest. *)
Definition sample_SHA256 (s : string) : string := "sha256:" +:+ s.

(** A codec for the two payload shapes the ledger creates. *)
Definition sample_encode (data : json) : string :=
  match data with
  | JObj [("data", JStr s)] => "d/" +:+ s
  | JObj [("owner", JStr a); ("star", JStr s)] => "s/" +:+ a +:+ "/" +:+ s
  | _ => "?"
  end.

Definition sample_decode (body : string) : Completion json :=
  match split "/" body with
  | ["d"; s] => Normal (JObj [("data", JStr s)])
  | ["s"; a; s] => Normal (Blockchain.star_data a (JStr s))
  | _ => Throw (Error.mk "SyntaxError" "Unexpected token")
  end.

(** A signature is the message itself, prefixed. *)
Definition sample_verify (message address signature : string) : Completion bool :=
  if bool_decide (signature = "")
  then Throw (Error.new "Invalid signature length")
  else Normal (bool_decide (signature = "signed:" +:+ message)).

(** [parseInt] on plain decimal text. *)
Definition sample_parseInt (s : string) : option Z :=
  option_map Z.of_int (NilZero.int_of_string s).

Definition sample_message : string := "alice:1700000000:starRegistry".

(** [new Blockchain()], once the admission of the genesis block has run. *)
Definition sample_fresh : World :=
  Blockchain.constructor sample_SHA256 sample_encode 1699999999000.

(** One star submitted 100 seconds after its message was issued. *)
Definition sample_two_blocks : World :=
  snd (Blockchain.submitStar sample_SHA256 sample_encode sample_verify
         sample_parseInt "alice" sample_message
         ("signed:" +:+ sample_message) (JStr "Vega")
         1700000100123 1700000100124 sample_fresh).

(** The hash under which the second block of [sample_two_blocks] is
    stored. *)
Definition sample_hash : string :=
  default "" (Block.hash (objects sample_two_blocks !!! 1%nat)).

Definition sample_star : json := Blockchain.star_data "alice" (JStr "Vega").

(** [new Blockchain()] at the moment the constructor returns: the genesis
    block is still waiting to be appended. *)
Definition sample_unsettled : System :=
  Schedule.constructor sample_SHA256 sample_encode 1699999999000.

(** The same ledger once the pending admission has run. *)
Definition sample_settled : System := Schedule.drain sample_unsettled.

(** A call [submitStar("alice", sample_message, signature, star)] at clock
    reading [now], the signature verifying; the call is not awaited. *)
Definition sample_submit (star : string) (now : Z) (s : System) : System :=
  snd (Schedule.call_submitStar sample_SHA256 sample_encode sample_verify
         sample_parseInt "alice" sample_message
         ("signed:" +:+ sample_message) (JStr star) now (now + 1) s).

(** [new Blockchain(); await submitStar(..)]. *)
Definition sample_early_star : System :=
  Schedule.drain (sample_submit "Vega" 1700000100123 sample_unsettled).

(** [new Blockchain(); await submitStar(..); await submitStar(..)]. *)
Definition sample_not_awaited : System :=
  Schedule.drain (sample_submit "Deneb" 1700000200123 sample_early_star).

(** Two calls of [submitStar] on a settled ledger, the second made before
    the first is awaited. *)
Definition sample_overlapping : System :=
  Schedule.drain
    (sample_submit "Deneb" 1700000100125
       (sample_submit "Vega" 1700000100123 sample_settled)).

(** One call of [submitStar] on a settled ledger, awaited. *)
Definition sample_one_star : System :=
  Schedule.drain (sample_submit "Vega" 1700000100123 sample_settled).

(** [new Blockchain(); await initializeChain()] within one millisecond. *)
Definition sample_two_genesis : System :=
  Schedule.drain
    (Schedule.call_initializeChain sample_SHA256 sample_encode 1699999999000
       sample_unsettled).

(** The hash of the genesis block of the sample ledgers. *)
Definition sample_genesis_hash : string :=
  default "" (Block.hash (objects (world sample_unsettled) !!! 0%nat)).

(** ** States, invariants and specifications *)

Section Ledger.

Variable SHA256 : string -> string.
Variable encode : json -> string.
Variable decode : string -> Completion json.
Variable verify : string -> string -> string -> Completion bool.
Variable parseInt : string -> option Z.

(** The object a reference points to. *)
Definition obj (w : World) (r : Ref) : Block.t := objects w !!! r.

(** What [validate()] and [_addBlock] leave in [hash]. *)
Definition rehash (b : Block.t) : Block.t :=
  Block.set_hash (Some (SHA256 (Block.JSON_stringify b))) b.

Definition rehash_at (r : Ref) (w : World) : World :=
  set_objects (fun os => <[r := rehash (os !!! r)]> os) w.

(** The entries the structural check of [validateChain] contributes. *)
Definition linkage_errors (index : nat) (b pb : Block.t) : list string :=
  if bool_decide (Block.previousBlockHash b = Block.hash pb) then []
  else [Blockchain.hashMismatchError index b pb].

(** [_addBlock(new Block(data))], the way both callers of [_addBlock] use it. *)
Definition admit_new (data : json) (now : Z) : JS (Promise (option Ref)) :=
  (block <- alloc (Block.constructor encode data) ;;
   Blockchain._addBlock SHA256 block now)%js.

(** The block as [_addBlock] has set it up when it validates the chain. *)
Definition prepared (len : nat) (now : Z) (b : Block.t) : Block.t :=
  rehash (Block.set_time now (Block.set_height (Z.of_nat len) b)).

Definition prepare_at (r : Ref) (now : Z) (w : World) : World :=
  set_objects (fun os => <[r := prepared (length (chain w)) now (os !!! r)]> os) w.

Definition push (r : Ref) (w : World) : World :=
  set_height (fun h => h + 1) (set_chain (fun c => (c ++ [r])%list) w).

(** The states of a chain in sequential use: [new Blockchain()] has settled
    and every call is awaited, so that the admission it started has run,
    before the next call is made.  [scheduled] below follows calls and
    continuations one by one instead. *)
Inductive reachable : World -> Prop :=
| reach_new (now : Z) :
    reachable (Blockchain.constructor SHA256 encode now)
| reach_addBlock (w : World) (data : json) (now : Z) :
    reachable w -> reachable (snd (admit_new data now w))
| reach_submitStar (w : World) (address message signature : string)
    (star : json) (now now' : Z) :
    reachable w ->
    reachable (snd (Blockchain.submitStar SHA256 encode verify parseInt
                      address message signature star now now' w))
| reach_validateChain (w : World) :
    reachable w -> reachable (snd (Blockchain.validateChain SHA256 w)).

(** A hash written by [_addBlock] and rewritten by later [validate()] calls. *)
Inductive hashed : Block.t -> Prop :=
| hashed_first (b : Block.t) : Block.hash b = None -> hashed (rehash b)
| hashed_again (b : Block.t) : hashed b -> hashed (rehash b).

(** The block stored at index [i] of the chain. *)
Record stored (w : World) (i : nat) (r : Ref) : Prop := {
  stored_valid : (r < length (objects w))%nat;
  stored_height : Block.height (obj w r) = Z.of_nat i;
  stored_previous : Block.previousBlockHash (obj w r) = None;
  stored_hashed : hashed (obj w r)
}.

Inductive shape (w : World) : Prop :=
| shape_genesis (g : Ref) :
    chain w = [g] -> height w = 0 -> stored w 0 g -> shape w
| shape_full (g s : Ref) :
    chain w = [g; s] -> height w = 1 -> g <> s ->
    stored w 0 g -> stored w 1 s -> shape w.

Definition submission_failed : Error.t :=
  Error.new "There was an issue submitting your star.".

(** Whether [submitStar] finds the message recent enough. *)
Definition in_time_window (message : string) (now : Z) : bool :=
  num_lt (num_sub (parseInt (Blockchain.seconds_text now))
                  (parseInt (Blockchain.message_time_field message)))
         (Some 300).

(** The digest is collision free: distinct texts have distinct digests. *)
Definition collision_free : Prop :=
  forall x y : string, SHA256 x = SHA256 y -> x = y.

(** The stored hash is the digest of the block as it was while its [hash]
    property held another value. *)
Definition stale (b : Block.t) : Prop :=
  exists h' : option string,
    h' <> Block.hash b
    /\ Block.hash b
       = Some (SHA256 (Block.JSON_stringify (Block.set_hash h' b))).

(** Assigning to [body] of a stored block from outside. *)
Definition tamper_body (r : Ref) (s : string) (w : World) : World :=
  set_objects (fun os => <[r := Block.set_body s (os !!! r)]> os) w.

(** What can go wrong inside the [try] block of [submitStar], with the error
    raised there. *)
Inductive failure (address message signature : string) (now : Z)
  : Error.t -> Prop :=
| failure_time_window :
    in_time_window message now = false ->
    failure address message signature now
      (Error.new
         "Time between current time and passed time needs to be less than 5 minutes.")
| failure_signature :
    in_time_window message now = true ->
    verify message address signature = Normal false ->
    failure address message signature now
      (Error.new "Message could not be verified.")
| failure_internal (err : Error.t) :
    in_time_window message now = true ->
    verify message address signature = Throw err ->
    failure address message signature now err.

(** Whether a decoded payload has an [owner] property equal to [address]. *)
Definition owner_is (address : string) (data : json) : bool :=
  match data with
  | JObj props =>
      match assoc "owner" props with
      | Some (JStr s) => bool_decide (s = address)
      | _ => false
      end
  | _ => false
  end.

(** The contribution of one block to the stars of a wallet, in the words of
    the specification: the decoded payload when its [owner] is [address];
    nothing for the genesis block, whose decoding is the marker, and nothing
    for a body that does not decode. *)
Definition star_of (address : string) (b : Block.t) : option json :=
  if (Block.height b =? 0)%Z then None
  else match decode (Block.body b) with
       | Normal data => if owner_is address data then Some data else None
       | Throw _ => None
       end.

(** The stars of a wallet as the specification words them: the payloads of
    the owner's blocks, in chain order. *)
Definition getStarsByWalletAddress_spec (address : string) (w : World)
  : list json :=
  omap (star_of address) (map (obj w) (chain w)).

(** The properties of a block other than [hash] agree. *)
Definition same_content (b b' : Block.t) : Prop :=
  Block.height b' = Block.height b
  /\ Block.body b' = Block.body b
  /\ Block.time b' = Block.time b
  /\ Block.previousBlockHash b' = Block.previousBlockHash b.

(** From [w] to [w'] nothing changed but the [hash] of blocks that are
    listed in [l] and have a positive height. *)
Record frame_on (l : list Ref) (w w' : World) : Prop := {
  frame_chain : chain w' = chain w;
  frame_height : height w' = height w;
  frame_length : length (objects w') = length (objects w);
  frame_content : forall r, same_content (obj w r) (obj w' r);
  frame_exact :
    forall r, ~ In r l \/ Block.height (obj w r) <= 0 -> obj w' r = obj w r
}.

Definition only_hashes_differ (w w' : World) : Prop := frame_on (chain w) w w'.

(** An entry of the error log written by the structural check. *)
Definition is_linkage_error (e : string) : Prop :=
  exists (index : nat) (b pb : Block.t),
    e = Blockchain.hashMismatchError index b pb.

(** [w'] has the chain and the counter of [w], or one more block, the
    object created last. *)
Definition appended (w w' : World) : Prop :=
  (chain w' = chain w /\ height w' = height w)
  \/ (chain w' = (chain w ++ [length (objects w)])%list
      /\ height w' = height w + 1).

(** Every block of [w] is still there in [w'] with its content; a block
    outside the chain, or of no positive height, is there unchanged. *)
Definition keeps_blocks (w w' : World) : Prop :=
  (length (objects w) <= length (objects w'))%nat
  /\ forall r : Ref, (r < length (objects w))%nat ->
       same_content (obj w r) (obj w' r)
       /\ (~ In r (chain w) \/ Block.height (obj w r) <= 0 ->
           obj w' r = obj w r).

(** The world in which [_addBlock] validates the chain, for a new block. *)
Definition staged (data : json) (now : Z) (w : World) : World :=
  prepare_at (length (objects w)) now
    (set_objects (fun os => (os ++ [Block.constructor encode data])%list) w).

(** The genesis block as [new Blockchain()] leaves it at clock reading
    [now]. *)
Definition genesis_block (now : Z) : Block.t :=
  prepared 0 now (Block.constructor encode Blockchain.genesis_data).

(** The promise [validateChain()] returns in world [w]. *)
Definition validation (w : World) : Promise (list string) :=
  match fst (Blockchain.validateChain SHA256 w) with
  | Normal p => p
  | Throw e => Rejected e
  end.

(** The states of the ledger under any order of calls and continuations:
    after [new Blockchain()] a client calls [initializeChain], [_addBlock] on
    a new block, [submitStar], [validateChain] or, on a block object it
    holds, [validate]; between any two calls the continuation at the head of
    the queue may run or not.  The queries change nothing and need no step,
    nor does a call of [submitStar] whose [message] is not a string.
    Assignments a client makes to the properties of a block itself are not
    steps. *)
Inductive scheduled : System -> Prop :=
| sched_new (now : Z) :
    scheduled (Schedule.constructor SHA256 encode now)
| sched_initializeChain (s : System) (now : Z) :
    scheduled s -> scheduled (Schedule.call_initializeChain SHA256 encode now s)
| sched_addBlock (s : System) (data : json) (now : Z) :
    scheduled s -> scheduled (Schedule.call_addBlock_new SHA256 encode data now s)
| sched_submitStar (s : System) (address message signature : string)
    (star : json) (now now' : Z) :
    scheduled s ->
    scheduled (snd (Schedule.call_submitStar SHA256 encode verify parseInt
                      address message signature star now now' s))
| sched_validateChain (s : System) :
    scheduled s -> scheduled (Schedule.call_validateChain SHA256 s)
| sched_validate (s : System) (block : Ref) :
    scheduled s -> (block < length (objects (world s)))%nat ->
    scheduled (Schedule.call_validate SHA256 block s)
| sched_microtask (s : System) :
    scheduled s -> scheduled (Schedule.run_microtask s).

Definition task_block (t : Task) : Ref :=
  match t with
  | ResumeAddBlock block _ => block
  end.

(** A block that [_addBlock] has set up: it exists, it has been hashed, its
    height, the length the chain had then, is at most [bound], and it has
    no link to a previous block. *)
Record admitted (w : World) (bound : nat) (r : Ref) : Prop := {
  admitted_valid : (r < length (objects w))%nat;
  admitted_hashed : hashed (obj w r);
  admitted_height : 0 <= Block.height (obj w r) <= Z.of_nat bound;
  admitted_previous : Block.previousBlockHash (obj w r) = None
}.

(** What holds of the ledger at every moment: object 0 is the genesis block
    of the constructor, up to its hash, and is, or is about to be, the first
    block of the chain; [height] counts the blocks; every block in the chain
    has been set up and stands at its height or further on; every block
    waiting to be appended has been set up for the present chain or a
    shorter one. *)
Record scheduled_inv (now0 : Z) (s : System) : Prop := {
  si_genesis : same_content (genesis_block now0) (obj (world s) 0);
  si_first :
    chain (world s) !! 0%nat = Some 0%nat
    \/ (chain (world s) = []
        /\ exists rest : list Task,
             microtasks s = ResumeAddBlock 0 (Fulfilled []) :: rest);
  si_counter : height (world s) = Z.of_nat (length (chain (world s))) - 1;
  si_chain :
    forall (i : nat) (r : Ref),
      chain (world s) !! i = Some r -> admitted (world s) i r;
  si_tasks :
    forall t : Task, In t (microtasks s) ->
      admitted (world s) (length (chain (world s))) (task_block t)
}.

(** * Properties *)

Ltac js_unfold :=
  cbv beta iota zeta delta
    [bind ret throw try_catch async await gets modify read update alloc
     Blockchain.call_validate Block.validate truthy_object negb id fst snd].

(** ** Serialisation is injective in the [hash] property *)

Lemma append_length (s1 s2 : string) :
  String.length (s1 +:+ s2) = (String.length s1 + String.length s2)%nat.
Proof. induction s1 as [|c s1 IH]; simpl; [reflexivity | now rewrite IH]. Qed.

Lemma append_inj_r (s1 s2 r : string) : s1 +:+ r = s2 +:+ r -> s1 = s2.
Proof.
  intros H.
  assert (Hlen : String.length s1 = String.length s2).
  { apply (f_equal String.length) in H. rewrite !append_length in H. lia. }
  revert s2 H Hlen.
  induction s1 as [|c s1 IH]; intros [|d s2] H Hlen; try discriminate.
  - reflexivity.
  - change (String c (s1 +:+ r) = String d (s2 +:+ r)) in H.
    injection H as -> H. injection Hlen as Hlen. f_equal. now apply IH.
Qed.

Lemma unescape_head_escape_char (c : ascii) (rest : string) :
  unescape_head (escape_char c rest) = Some (c, rest).
Proof.
  destruct c as [[] [] [] [] [] [] [] []]; reflexivity.
Qed.

Lemma escape_inj (s1 s2 : string) : escape s1 = escape s2 -> s1 = s2.
Proof.
  revert s2. induction s1 as [|c s1 IH]; intros [|d s2] H; simpl in H.
  - reflexivity.
  - apply (f_equal unescape_head) in H.
    rewrite unescape_head_escape_char in H. discriminate.
  - apply (f_equal unescape_head) in H.
    rewrite unescape_head_escape_char in H. discriminate.
  - apply (f_equal unescape_head) in H.
    rewrite !unescape_head_escape_char in H.
    injection H as -> H. f_equal. now apply IH.
Qed.

Lemma JSON_string_or_null_inj (h1 h2 : option string) :
  JSON_string_or_null h1 = JSON_string_or_null h2 -> h1 = h2.
Proof.
  destruct h1 as [a|], h2 as [b|]; simpl; intros H;
    try reflexivity; try discriminate.
  unfold JSON_quote in H. injection H as H.
  apply append_inj_r, escape_inj in H. now subst.
Qed.

Lemma JSON_stringify_hash_inj (b : Block.t) (h1 h2 : option string) :
  Block.JSON_stringify (Block.set_hash h1 b)
  = Block.JSON_stringify (Block.set_hash h2 b) ->
  h1 = h2.
Proof.
  unfold Block.JSON_stringify, Block.set_hash.
  cbn [Block.hash Block.height Block.body Block.time Block.previousBlockHash].
  intros H. do 2 apply String.app_inj in H.
  apply append_inj_r in H. now apply JSON_string_or_null_inj.
Qed.

(** ** Running the chain operations *)

Lemma validate_eq (b : Block.t) :
  Block.validate SHA256 b
  = (Fulfilled (bool_decide (Block.hash b = Block.hash (rehash b))), rehash b).
Proof. reflexivity. Qed.

Lemma callback_skip (w : World) (log : list string) (r : Ref) (i : nat) :
  Block.height (obj w r) <= 0 ->
  Blockchain.validateChain_callback SHA256 log r i w = (Normal log, w).
Proof.
  intros H. unfold Blockchain.validateChain_callback. js_unfold.
  apply Z.ltb_ge in H. unfold obj in H. rewrite H. reflexivity.
Qed.

Lemma callback_check (w : World) (log : list string) (r p : Ref) (i : nat) :
  0 < Block.height (obj w r) ->
  array_get (chain w) (Z.of_nat i - 1) = Some p ->
  Blockchain.validateChain_callback SHA256 log r i w
  = (Normal (log ++ linkage_errors i (obj w r) (obj w p))%list, rehash_at r w).
Proof.
  intros H Hp. unfold Blockchain.validateChain_callback. js_unfold.
  apply Z.ltb_lt in H. unfold obj in *. rewrite H, Hp.
  unfold linkage_errors, rehash_at, rehash, set_objects.
  destruct (bool_decide _); simpl; rewrite ?app_nil_r; reflexivity.
Qed.

Lemma callback_throw (w : World) (log : list string) (r : Ref) (i : nat) :
  0 < Block.height (obj w r) ->
  array_get (chain w) (Z.of_nat i - 1) = None ->
  Blockchain.validateChain_callback SHA256 log r i w
  = (Throw Blockchain.TypeError_undefined, w).
Proof.
  intros H Hp. unfold Blockchain.validateChain_callback. js_unfold.
  apply Z.ltb_lt in H. unfold obj in *. rewrite H, Hp. reflexivity.
Qed.

(** A chain that holds the genesis block only validates without a finding. *)
Lemma validateChain_one (w : World) (g : Ref) :
  chain w = [g] ->
  Block.height (obj w g) = 0 ->
  Blockchain.validateChain SHA256 w = (Normal (Fulfilled []), w).
Proof.
  intros Hc Hg. unfold Blockchain.validateChain. js_unfold.
  rewrite Hc. cbn [forEach]. js_unfold.
  rewrite callback_skip by lia. reflexivity.
Qed.

(** A first block of positive height has no predecessor to read: the
    traversal throws and the whole validation is rejected. *)
Lemma validateChain_rejects (w : World) (g : Ref) (rest : list Ref) :
  chain w = g :: rest ->
  0 < Block.height (obj w g) ->
  Blockchain.validateChain SHA256 w
  = (Normal (Rejected (Error.new "Could not validate chain.")), w).
Proof.
  intros Hc Hg. unfold Blockchain.validateChain. js_unfold.
  rewrite Hc. cbn [forEach]. js_unfold.
  rewrite (callback_throw w [] g 0 Hg) by (rewrite Hc; reflexivity).
  reflexivity.
Qed.

(** With a second block, its linkage is checked and it is rehashed. *)
Lemma validateChain_two (w : World) (g s : Ref) :
  chain w = [g; s] ->
  Block.height (obj w g) = 0 ->
  0 < Block.height (obj w s) ->
  Blockchain.validateChain SHA256 w
  = (Normal (Fulfilled (linkage_errors 1 (obj w s) (obj w g))), rehash_at s w).
Proof.
  intros Hc Hg Hs. unfold Blockchain.validateChain. js_unfold.
  rewrite Hc. cbn [forEach]. js_unfold.
  rewrite callback_skip by lia.
  rewrite (callback_check w [] s g 1 Hs) by (rewrite Hc; reflexivity).
  reflexivity.
Qed.

(** The three assignments of [_addBlock] to the block it is given. *)
Lemma prepare_steps (w : World) (r : Ref) (now : Z) :
  (r < length (objects w))%nat ->
  let w1 := set_objects
    (fun os => <[r := Block.set_height (Z.of_nat (length (chain w))) (os !!! r)]> os) w in
  let w2 := set_objects (fun os => <[r := Block.set_time now (os !!! r)]> os) w1 in
  set_objects
    (fun os => <[r := Block.set_hash
       (Some (SHA256 (Block.JSON_stringify (objects w2 !!! r)))) (os !!! r)]> os) w2
  = prepare_at r now w.
Proof.
  intros Hr. unfold prepare_at, prepared, rehash, set_objects. simpl.
  rewrite !list_lookup_total_insert_eq by (rewrite ?length_insert; lia).
  rewrite !list_insert_insert_eq. reflexivity.
Qed.

(** [_addBlock] in terms of the validation it runs. *)
Lemma _addBlock_eq (w : World) (r : Ref) (now : Z) :
  (r < length (objects w))%nat ->
  Blockchain._addBlock SHA256 r now w
  = match Blockchain.validateChain SHA256 (prepare_at r now w) with
    | (Normal (Fulfilled []), w') => (Normal (Fulfilled (Some r)), push r w')
    | (Normal (Fulfilled (_ :: _)), w') => (Normal (Fulfilled None), w')
    | (Normal (Rejected e), w') => (Normal (Rejected (Error.wrap e)), w')
    | (Throw e, w') => (Normal (Rejected (Error.wrap e)), w')
    end.
Proof.
  intros Hr. unfold Blockchain._addBlock. js_unfold.
  pose proof (prepare_steps w r now Hr) as Hw. cbv zeta in Hw.
  rewrite Hw.
  destruct (Blockchain.validateChain SHA256 (prepare_at r now w))
    as [[[errors|e]|e] w'] eqn:Hv.
  - destruct errors; reflexivity.
  - reflexivity.
  - unfold Blockchain.validateChain in Hv. revert Hv. js_unfold.
    destruct (forEach _ _ _ _ _) as [[?|?] ?]; discriminate.
Qed.

(** ** Reachable states *)

Lemma hashed_is_Some (b : Block.t) : hashed b -> is_Some (Block.hash b).
Proof. intros [b' _|b' _]; simpl; eauto. Qed.

(** Writing another object leaves a stored block alone. *)
Lemma stored_insert_ne (w : World) (i : nat) (r r' : Ref) (b : Block.t) :
  r <> r' -> stored w i r ->
  stored (set_objects (fun os => <[r' := b]> os) w) i r.
Proof.
  intros Hne [Hv Hh Hp Hd]. unfold obj in *.
  split; unfold obj; simpl; rewrite ?length_insert;
    rewrite ?list_lookup_total_insert_ne by congruence; assumption.
Qed.

Lemma stored_rehash (w : World) (i : nat) (r : Ref) :
  stored w i r -> stored (rehash_at r w) i r.
Proof.
  intros [Hv Hh Hp Hd]. unfold obj in *.
  split; unfold obj, rehash_at; simpl; rewrite ?length_insert;
    rewrite ?list_lookup_total_insert_eq by assumption;
    try assumption.
  now apply hashed_again.
Qed.

Lemma stored_alloc (w : World) (i : nat) (r : Ref) (b : Block.t) :
  stored w i r -> stored (set_objects (fun os => (os ++ [b])%list) w) i r.
Proof.
  intros [Hv Hh Hp Hd]. unfold obj in *.
  split; unfold obj; simpl; rewrite ?length_app;
    rewrite ?lookup_total_app_l by assumption; try assumption. lia.
Qed.

Lemma stored_push (w : World) (i : nat) (r r' : Ref) :
  stored w i r -> stored (push r' w) i r.
Proof. intros [Hv Hh Hp Hd]. split; assumption. Qed.

(** *** The steps of the chain *)

Lemma admit_new_eq (w : World) (data : json) (now : Z) :
  admit_new data now w
  = Blockchain._addBlock SHA256 (length (objects w)) now
      (set_objects (fun os => (os ++ [Block.constructor encode data])%list) w).
Proof. reflexivity. Qed.

Lemma prepared_new_stored (w : World) (data : json) (now : Z) (i : nat) :
  length (chain w) = i ->
  stored
    (prepare_at (length (objects w)) now
       (set_objects (fun os => (os ++ [Block.constructor encode data])%list) w))
    i (length (objects w)).
Proof.
  intros Hi.
  assert (Hobj : obj
    (prepare_at (length (objects w)) now
       (set_objects (fun os => (os ++ [Block.constructor encode data])%list) w))
    (length (objects w))
    = prepared i now (Block.constructor encode data)).
  { unfold obj, prepare_at. simpl.
    rewrite list_lookup_total_insert_eq by (rewrite length_app; simpl; lia).
    rewrite lookup_total_app_r by lia. rewrite Nat.sub_diag, Hi. reflexivity. }
  split; rewrite ?Hobj.
  - unfold prepare_at. simpl. rewrite length_insert, length_app. simpl. lia.
  - reflexivity.
  - reflexivity.
  - apply hashed_first. reflexivity.
Qed.

Lemma prepared_new_frame (w : World) (data : json) (now : Z) (i : nat) (r : Ref) :
  stored w i r ->
  stored
    (prepare_at (length (objects w)) now
       (set_objects (fun os => (os ++ [Block.constructor encode data])%list) w))
    i r.
Proof.
  intros Hs. apply stored_insert_ne.
  - destruct Hs as [Hv _ _ _]. lia.
  - now apply stored_alloc.
Qed.

(** On a chain that holds the genesis block only, a new block is appended. *)
Lemma admit_new_genesis (w : World) (g : Ref) (data : json) (now : Z) :
  chain w = [g] -> height w = 0 -> stored w 0 g ->
  exists w',
    admit_new data now w = (Normal (Fulfilled (Some (length (objects w)))), w')
    /\ chain w' = [g; length (objects w)]
    /\ height w' = 1
    /\ stored w' 0 g
    /\ stored w' 1 (length (objects w))
    /\ g <> length (objects w).
Proof.
  intros Hc Hh Hg.
  set (r := length (objects w)).
  set (wa := set_objects (fun os => (os ++ [Block.constructor encode data])%list) w).
  assert (Hg' : stored (prepare_at r now wa) 0 g)
    by now apply prepared_new_frame.
  assert (Hr' : stored (prepare_at r now wa) 1 r)
    by (apply prepared_new_stored; now rewrite Hc).
  exists (push r (prepare_at r now wa)).
  rewrite admit_new_eq. fold r wa.
  rewrite _addBlock_eq by (unfold wa; simpl; rewrite length_app; simpl; lia).
  rewrite (validateChain_one (prepare_at r now wa) g Hc)
    by (destruct Hg' as [_ H _ _]; exact H).
  split; [reflexivity|].
  split; [simpl; now rewrite Hc|].
  split; [simpl; lia|].
  split; [now apply stored_push|].
  split; [now apply stored_push|].
  destruct Hg as [Hv _ _ _]. subst r. lia.
Qed.

Lemma linkage_errors_stored (w : World) (g s : Ref) :
  stored w 0 g -> stored w 1 s ->
  linkage_errors 1 (obj w s) (obj w g)
  = [Blockchain.hashMismatchError 1 (obj w s) (obj w g)].
Proof.
  intros [_ _ _ Hd] [_ _ Hp _]. unfold linkage_errors.
  apply hashed_is_Some in Hd. destruct Hd as [h Hh].
  rewrite Hp, Hh. reflexivity.
Qed.

(** On a chain of two blocks, validation reports the missing link of the
    second one and rewrites its hash. *)
Lemma validateChain_full (w : World) (g s : Ref) :
  chain w = [g; s] -> g <> s -> stored w 0 g -> stored w 1 s ->
  Blockchain.validateChain SHA256 w
  = (Normal (Fulfilled [Blockchain.hashMismatchError 1 (obj w s) (obj w g)]),
     rehash_at s w)
  /\ stored (rehash_at s w) 0 g /\ stored (rehash_at s w) 1 s.
Proof.
  intros Hc Hne Hg Hs. split; [|split].
  - rewrite (validateChain_two w g s Hc).
    + now rewrite linkage_errors_stored.
    + destruct Hg as [_ H _ _]. exact H.
    + destruct Hs as [_ H _ _]. rewrite H. reflexivity.
  - apply stored_insert_ne; [congruence | assumption].
  - now apply stored_rehash.
Qed.

(** On a chain of two blocks, a new block is not appended. *)
Lemma admit_new_full (w : World) (g s : Ref) (data : json) (now : Z) :
  chain w = [g; s] -> height w = 1 -> g <> s ->
  stored w 0 g -> stored w 1 s ->
  exists w',
    admit_new data now w = (Normal (Fulfilled None), w')
    /\ chain w' = chain w
    /\ height w' = height w
    /\ stored w' 0 g
    /\ stored w' 1 s.
Proof.
  intros Hc Hh Hne Hg Hs.
  set (r := length (objects w)).
  set (wa := set_objects (fun os => (os ++ [Block.constructor encode data])%list) w).
  assert (Hg' : stored (prepare_at r now wa) 0 g)
    by now apply prepared_new_frame.
  assert (Hs' : stored (prepare_at r now wa) 1 s)
    by now apply prepared_new_frame.
  destruct (validateChain_full (prepare_at r now wa) g s Hc Hne Hg' Hs')
    as (Hv & Hg'' & Hs'').
  exists (rehash_at s (prepare_at r now wa)).
  rewrite admit_new_eq. fold r wa.
  rewrite _addBlock_eq by (unfold wa; simpl; rewrite length_app; simpl; lia).
  rewrite Hv. auto.
Qed.

(** [new Blockchain()] leaves the genesis block, hashed, as the only block. *)
Lemma constructor_eq (now : Z) :
  Blockchain.constructor SHA256 encode now
  = mkWorld [prepared 0 now (Block.constructor encode Blockchain.genesis_data)]
      [0%nat] 0.
Proof. reflexivity. Qed.

Lemma constructor_stored (now : Z) :
  stored (Blockchain.constructor SHA256 encode now) 0 0.
Proof.
  rewrite constructor_eq. split; simpl.
  - lia.
  - reflexivity.
  - reflexivity.
  - apply hashed_first. reflexivity.
Qed.

Lemma async_Normal {A : Type} (m : JS A) (w : World) :
  exists p w', async m w = (Normal p, w').
Proof. unfold async. destruct (m w) as [[a|e] w']; eauto. Qed.

Lemma _addBlock_Normal (r : Ref) (now : Z) (w : World) :
  exists p w', Blockchain._addBlock SHA256 r now w = (Normal p, w').
Proof. unfold Blockchain._addBlock. apply async_Normal. Qed.

(** [submitStar] either fails without touching the world, or creates a block
    and hands it to [_addBlock]. *)
Lemma submitStar_eq (w : World) (address message signature : string)
    (star : json) (now now' : Z) :
  Blockchain.submitStar SHA256 encode verify parseInt
    address message signature star now now' w
  = if in_time_window message now then
      match verify message address signature with
      | Normal true =>
          (Normal (Fulfilled (length (objects w))),
           snd (admit_new (Blockchain.star_data address star) now' w))
      | Normal false => (Normal (Rejected submission_failed), w)
      | Throw _ => (Normal (Rejected submission_failed), w)
      end
    else (Normal (Rejected submission_failed), w).
Proof.
  unfold Blockchain.submitStar, Blockchain.submitStar_try, in_time_window.
  change (5 * 60) with 300.
  destruct (num_lt _ _); [|reflexivity].
  destruct (verify message address signature) as [[|]|e]; try reflexivity.
  unfold admit_new. js_unfold.
  destruct (_addBlock_Normal (length (objects w)) now'
    (set_objects
       (fun os => (os ++ [Block.constructor encode
                            (Blockchain.star_data address star)])%list) w))
    as (p & w' & Hp).
  rewrite Hp. reflexivity.
Qed.

(** Every reachable chain is the genesis block, or the genesis block and one
    further block whose [previousBlockHash] is [null]. *)
Lemma admit_new_shape (w : World) (data : json) (now : Z) :
  shape w -> shape (snd (admit_new data now w)).
Proof.
  intros [g Hc Hh Hg | g s Hc Hh Hne Hg Hs].
  - destruct (admit_new_genesis w g data now Hc Hh Hg)
      as (w' & -> & Hc' & Hh' & Hg' & Hr' & Hne).
    now apply (shape_full w' g (length (objects w))).
  - destruct (admit_new_full w g s data now Hc Hh Hne Hg Hs)
      as (w' & -> & Hc' & Hh' & Hg' & Hs').
    apply (shape_full w' g s); congruence.
Qed.

Lemma validateChain_shape (w : World) :
  shape w -> shape (snd (Blockchain.validateChain SHA256 w)).
Proof.
  intros [g Hc Hh Hg | g s Hc Hh Hne Hg Hs].
  - rewrite (validateChain_one w g Hc) by (destruct Hg as [_ H _ _]; exact H).
    now apply (shape_genesis w g).
  - destruct (validateChain_full w g s Hc Hne Hg Hs) as (-> & Hg' & Hs').
    now apply (shape_full (rehash_at s w) g s).
Qed.

Lemma submitStar_shape (w : World) (address message signature : string)
    (star : json) (now now' : Z) :
  shape w ->
  shape (snd (Blockchain.submitStar SHA256 encode verify parseInt
                address message signature star now now' w)).
Proof.
  intros Hw. rewrite submitStar_eq.
  destruct (in_time_window message now); [|exact Hw].
  destruct (verify message address signature) as [[|]|e]; try exact Hw.
  now apply admit_new_shape.
Qed.

Lemma reachable_shape (w : World) : reachable w -> shape w.
Proof.
  induction 1 as [now | w data now _ IH | w a m sg st now now' _ IH | w _ IH].
  - apply (shape_genesis _ 0%nat).
    + reflexivity.
    + reflexivity.
    + apply constructor_stored.
  - now apply admit_new_shape.
  - now apply submitStar_shape.
  - now apply validateChain_shape.
Qed.

(** ** Admission and linkage *)

(** C1 (code defect).  On a fresh chain [_addBlock] admits the new block at
    height 1, as [submitStar] has it do once its two checks pass, but the
    block keeps [previousBlockHash = null] while the genesis block's [hash]
    is a digest: the admitted block's [previousBlockHash] does not equal the
    [hash] of the block at [height - 1]. *)
Theorem C1_admitted_block_is_not_linked (now0 now : Z) (data : json) :
  let w0 := Blockchain.constructor SHA256 encode now0 in
  exists w1 : World,
    admit_new data now w0 = (Normal (Fulfilled (Some 1%nat)), w1)
    /\ chain w1 = [0%nat; 1%nat]
    /\ height w1 = 1
    /\ Block.height (obj w1 1) = 1
    /\ Block.previousBlockHash (obj w1 1) = None
    /\ is_Some (Block.hash (obj w1 0))
    /\ Block.previousBlockHash (obj w1 1) <> Block.hash (obj w1 0).
Proof.
  intros w0.
  destruct (admit_new_genesis w0 0%nat data now eq_refl eq_refl
              (constructor_stored now0))
    as (w1 & Hrun & Hc & Hh & Hg & Hs & _).
  exists w1. change (length (objects w0)) with 1%nat in *.
  destruct Hg as [_ _ _ Hg], Hs as [_ Hsh Hsp _].
  apply hashed_is_Some in Hg.
  repeat (split; [assumption|]).
  rewrite Hsp. destruct Hg as [h ->]. discriminate.
Qed.

(** C2 (code defect).  After [new Blockchain()] and one successful admission,
    a chain reached through successful admissions only, [validateChain()]
    returns a log with one entry, the linkage error of block 1: the log is
    not empty. *)
Theorem C2_validateChain_reports_an_admitted_chain (now0 now : Z) (data : json) :
  let w1 := snd (admit_new data now (Blockchain.constructor SHA256 encode now0)) in
  fst (Blockchain.validateChain SHA256 w1)
  = Normal (Fulfilled [Blockchain.hashMismatchError 1 (obj w1 1) (obj w1 0)]).
Proof.
  intros w1. subst w1.
  destruct (admit_new_genesis (Blockchain.constructor SHA256 encode now0)
              0%nat data now eq_refl eq_refl (constructor_stored now0))
    as (w1 & -> & Hc & Hh & Hg & Hs & Hne).
  change (length (objects (Blockchain.constructor SHA256 encode now0)))
    with 1%nat in *.
  cbn [snd].
  destruct (validateChain_full w1 0 1 Hc Hne Hg Hs) as (-> & _). reflexivity.
Qed.

(** In every reachable state each stored block has a [null]
    [previousBlockHash]. *)
Lemma reachable_previousBlockHash (w : World) (r : Ref) :
  reachable w -> In r (chain w) -> Block.previousBlockHash (obj w r) = None.
Proof.
  intros Hw Hr. apply reachable_shape in Hw.
  destruct Hw as [g Hc _ Hg | g s Hc _ _ Hg Hs]; rewrite Hc in Hr; simpl in Hr.
  - destruct Hr as [<-|[]]. now destruct Hg.
  - destruct Hr as [<-|[<-|[]]]; [now destruct Hg | now destruct Hs].
Qed.

(** C9.  In sequential use, that is when [new Blockchain()] has settled and
    every call is awaited before the next one is made ([reachable]), a chain
    holds at most two blocks and [height] is the number of blocks less one;
    every stored block has a [null] [previousBlockHash]; and once the chain
    holds the genesis block and one further block, [validateChain()] reports
    a linkage error, so that [_addBlock], called directly on a new block or
    through [submitStar], leaves the [chain] array and the [height] counter
    as they are.  Without the restriction to sequential use the bound fails:
    [sample_not_awaited] and [sample_overlapping] hold three blocks. *)
Theorem C9_chain_holds_at_most_two_blocks (w : World) :
  reachable w ->
  (length (chain w) <= 2)%nat
  /\ height w = Z.of_nat (length (chain w)) - 1
  /\ (forall r, In r (chain w) -> Block.previousBlockHash (obj w r) = None)
  /\ (length (chain w) = 2%nat ->
      (exists g s w',
         chain w = [g; s]
         /\ Blockchain.validateChain SHA256 w
            = (Normal (Fulfilled
                 [Blockchain.hashMismatchError 1 (obj w s) (obj w g)]), w')
         /\ chain w' = chain w /\ height w' = height w)
      /\ (forall data now,
            fst (admit_new data now w) = Normal (Fulfilled None)
            /\ chain (snd (admit_new data now w)) = chain w
            /\ height (snd (admit_new data now w)) = height w)
      /\ (forall address message signature star now now',
            let w' := snd (Blockchain.submitStar SHA256 encode verify parseInt
                             address message signature star now now' w) in
            chain w' = chain w /\ height w' = height w)).
Proof.
  intros Hw.
  split; [|split; [|split]].
  - apply reachable_shape in Hw.
    destruct Hw as [g Hc _ _ | g s Hc _ _ _ _]; rewrite Hc; simpl; lia.
  - apply reachable_shape in Hw.
    destruct Hw as [g Hc Hh _ | g s Hc Hh _ _ _]; rewrite Hc, Hh; reflexivity.
  - intros r. now apply reachable_previousBlockHash.
  - intros Hlen. apply reachable_shape in Hw.
    destruct Hw as [g Hc _ _ | g s Hc Hh Hne Hg Hs];
      [rewrite Hc in Hlen; discriminate|].
    assert (Hadmit : forall data now,
              fst (admit_new data now w) = Normal (Fulfilled None)
              /\ chain (snd (admit_new data now w)) = chain w
              /\ height (snd (admit_new data now w)) = height w).
    { intros data now.
      destruct (admit_new_full w g s data now Hc Hh Hne Hg Hs)
        as (w' & -> & Hc' & Hh' & _). auto. }
    split; [|split].
    + destruct (validateChain_full w g s Hc Hne Hg Hs) as (Hv & _).
      exists g, s. eexists. split; [exact Hc|].
      split; [exact Hv|]. split; reflexivity.
    + exact Hadmit.
    + intros address message signature star now now'. cbv zeta.
      rewrite submitStar_eq.
      destruct (in_time_window message now); [|auto].
      destruct (verify message address signature) as [[|]|e]; auto.
      cbn [snd]. apply Hadmit.
Qed.

(** ** Self-validation of a stored block *)

Lemma set_hash_rehash (b : Block.t) :
  Block.set_hash (Block.hash b) (rehash b) = b.
Proof. destruct b; reflexivity. Qed.

Lemma set_hash_same (b : Block.t) : Block.set_hash (Block.hash b) b = b.
Proof. destruct b; reflexivity. Qed.

Lemma stale_not_fixed (b : Block.t) :
  collision_free -> stale b ->
  Block.hash b <> Some (SHA256 (Block.JSON_stringify b)).
Proof.
  intros Hcf (h' & Hne & Hh) Heq. apply Hne.
  rewrite Hh in Heq. injection Heq as Heq. apply Hcf in Heq.
  rewrite <- (set_hash_same b) in Heq at 2.
  now apply JSON_stringify_hash_inj in Heq.
Qed.

Lemma hashed_stale (b : Block.t) : collision_free -> hashed b -> stale b.
Proof.
  intros Hcf. induction 1 as [b Hnone | b Hb IH].
  - exists None. split; [discriminate|].
    simpl. do 3 f_equal. destruct b; simpl in *; now subst.
  - exists (Block.hash b). split.
    + apply (stale_not_fixed b Hcf IH).
    + now rewrite set_hash_rehash.
Qed.




(** ** The content check of [validateChain] *)

Lemma JSON_stringify_null_hash (b b' : Block.t) :
  Block.hash b = None -> is_Some (Block.hash b') ->
  Block.JSON_stringify b <> Block.JSON_stringify b'.
Proof.
  intros Hn [h Hs]. unfold Block.JSON_stringify. rewrite Hn, Hs.
  intros H. do 2 apply String.app_inj in H. discriminate H.
Qed.

Lemma linkage_is_not_tamper_error (b pb b' : Block.t) :
  Blockchain.hashMismatchError 1 b pb <> Blockchain.blockInvalidError 1 b'.
Proof.
  unfold Blockchain.hashMismatchError, Blockchain.blockInvalidError.
  intros H. do 2 apply String.app_inj in H. discriminate H.
Qed.

(** C3 (code defect).  Take the chain after [new Blockchain()] and one
    admission, and overwrite the [body] of block 1.  With a collision-free
    digest the block's [validate()] resolves to [false]; yet the log that
    [validateChain()] returns holds the linkage error of block 1 only, and no
    tamper error: the check negates the promise, not its value. *)
Theorem C3_tamper_error_is_never_logged (now0 now : Z) (data : json)
    (body' : string) :
  collision_free ->
  let w1 := tamper_body 1 body'
              (snd (admit_new data now
                      (Blockchain.constructor SHA256 encode now0))) in
  fst (Block.validate SHA256 (obj w1 1)) = Fulfilled false
  /\ fst (Blockchain.validateChain SHA256 w1)
     = Normal (Fulfilled [Blockchain.hashMismatchError 1 (obj w1 1) (obj w1 0)])
  /\ forall b : Block.t,
       ~ In (Blockchain.blockInvalidError 1 b)
            [Blockchain.hashMismatchError 1 (obj w1 1) (obj w1 0)].
Proof.
  intros Hcf w1.
  assert (Hw1 : w1 = mkWorld
            [prepared 0 now0 (Block.constructor encode Blockchain.genesis_data);
             Block.set_body body'
               (prepared 1 now (Block.constructor encode data))]
            [0%nat; 1%nat] 1) by reflexivity.
  split; [|split].
  - rewrite Hw1. unfold obj. cbn [objects lookup_total list_lookup_total].
    rewrite validate_eq. cbn [fst]. f_equal.
    apply bool_decide_eq_false. intros H. injection H as H.
    apply Hcf in H. revert H.
    apply JSON_stringify_null_hash; [reflexivity | simpl; eauto].
  - rewrite (validateChain_two w1 0 1);
      [| rewrite Hw1; reflexivity ..].
    rewrite Hw1. reflexivity.
  - intros b [H|[]]. exact (linkage_is_not_tamper_error _ _ _ H).
Qed.

(** ** Star submission *)

(** C4.  When the message's timestamp, parsed from its second
    colon-delimited field, lies 300 seconds or more before the current time,
    [submitStar] rejects, whatever [verify] would answer, and the world is
    left as it was: no block is created, none is admitted. *)
Theorem C4_submitStar_rejects_outside_window (w : World)
    (address message signature : string) (star : json) (now now' : Z)
    (passedTime currentTime : Z) :
  parseInt (Blockchain.message_time_field message) = Some passedTime ->
  parseInt (Blockchain.seconds_text now) = Some currentTime ->
  300 <= currentTime - passedTime ->
  Blockchain.submitStar SHA256 encode verify parseInt
    address message signature star now now' w
  = (Normal (Rejected submission_failed), w).
Proof.
  intros Hp Hc Hel. rewrite submitStar_eq.
  unfold in_time_window. rewrite Hp, Hc. simpl.
  apply Z.ltb_ge in Hel. now rewrite Hel.
Qed.

(** Whichever failure occurs inside the [try] block of [submitStar], a
    time-window violation, a signature that does not verify or an error
    raised by the verification, the block raises its own error [inner], and
    what the caller gets is the one rejection [submission_failed], the same
    for every [inner]. *)
Theorem submitStar_failure_in_try_is_generic (w : World)
    (address message signature : string) (star : json) (now now' : Z)
    (inner : Error.t) :
  failure address message signature now inner ->
  Blockchain.submitStar_try SHA256 encode verify
    address message signature star
    (parseInt (Blockchain.seconds_text now))
    (parseInt (Blockchain.message_time_field message)) now' w
  = (Throw inner, w)
  /\ Blockchain.submitStar SHA256 encode verify parseInt
       address message signature star now now' w
     = (Normal (Rejected submission_failed), w).
Proof.
  intros Hf. rewrite submitStar_eq. unfold Blockchain.submitStar_try.
  change (5 * 60) with 300.
  destruct Hf as [Ht | Ht Hv | err Ht Hv];
    pose proof Ht as Ht'; unfold in_time_window in Ht'; rewrite Ht, Ht';
    rewrite ?Hv; split; reflexivity.
Qed.

(** A rejection of [submitStar] is never anything but [submission_failed],
    and [submitStar] itself never throws. *)
Lemma submitStar_rejection_is_generic (w w' : World)
    (address message signature : string) (star : json) (now now' : Z)
    (e : Error.t) :
  Blockchain.submitStar SHA256 encode verify parseInt
    address message signature star now now' w = (Normal (Rejected e), w') ->
  e = submission_failed.
Proof.
  rewrite submitStar_eq.
  destruct (in_time_window message now);
    [destruct (verify message address signature) as [[|]|err]|];
    intros H; congruence.
Qed.

(** In a reachable state the admission that [submitStar] starts and does not
    wait for never rejects. *)
Lemma admit_new_never_rejects (w : World) (data : json) (now : Z) :
  reachable w ->
  exists (res : option Ref) (w' : World),
    admit_new data now w = (Normal (Fulfilled res), w').
Proof.
  intros Hw. apply reachable_shape in Hw.
  destruct Hw as [g Hc Hh Hg | g s Hc Hh Hne Hg Hs].
  - destruct (admit_new_genesis w g data now Hc Hh Hg) as (w' & H & _). eauto.
  - destruct (admit_new_full w g s data now Hc Hh Hne Hg Hs) as (w' & H & _).
    eauto.
Qed.

(** ** Queries *)

Lemma getBlockByHeight_eq (w : World) (h : Z) :
  Blockchain.getBlockByHeight h w
  = (Normal (Fulfilled
       (filter (fun p => Block.height (obj w p) = h) (chain w) !! 0%nat)), w).
Proof.
  unfold Blockchain.getBlockByHeight. js_unfold. fold (obj w).
  destruct (filter _ (chain w) !! 0%nat); reflexivity.
Qed.

(** The head of a filtered list is the first element that passes. *)
Lemma filter_head_first (w : World) (h : Z) (l : list Ref) :
  match filter (fun p => Block.height (obj w p) = h) l !! 0%nat with
  | Some p =>
      exists before after : list Ref,
        l = (before ++ p :: after)%list
        /\ Forall (fun q => Block.height (obj w q) <> h) before
        /\ Block.height (obj w p) = h
  | None => Forall (fun q => Block.height (obj w q) <> h) l
  end.
Proof.
  induction l as [|x l IH].
  - constructor.
  - rewrite filter_cons.
    destruct (decide (Block.height (obj w x) = h)) as [Hx|Hx].
    + exists [], l. repeat split; [constructor | exact Hx].
    + destruct (filter _ l !! 0%nat) as [p|].
      * destruct IH as (before & after & -> & Hb & Hp).
        exists (x :: before), after. repeat split; [|exact Hp].
        now constructor.
      * now constructor.
Qed.

(** C6.  [getBlockByHeight(height)] never throws and never rejects, and it
    leaves the world alone.  It resolves with the first block of the chain
    whose [height] is the argument, and with [null] when no block of the
    chain has that height. *)
Theorem C6_getBlockByHeight_first_or_null (w : World) (h : Z) :
  exists res : option Ref,
    Blockchain.getBlockByHeight h w = (Normal (Fulfilled res), w)
    /\ match res with
       | Some p =>
           exists before after : list Ref,
             chain w = (before ++ p :: after)%list
             /\ Forall (fun q => Block.height (obj w q) <> h) before
             /\ Block.height (obj w p) = h
       | None => Forall (fun q => Block.height (obj w q) <> h) (chain w)
       end.
Proof.
  eexists. split; [apply getBlockByHeight_eq | apply filter_head_first].
Qed.

(** In a reachable state a height at or beyond the chain's length has no
    block. *)
Lemma getBlockByHeight_beyond_chain (w : World) (n : Z) :
  reachable w -> Z.of_nat (length (chain w)) <= n ->
  Blockchain.getBlockByHeight n w = (Normal (Fulfilled None), w).
Proof.
  intros Hw Hn. rewrite getBlockByHeight_eq.
  pose proof (filter_head_first w n (chain w)) as Hres.
  destruct (filter _ (chain w) !! 0%nat) as [p|]; [|reflexivity].
  exfalso. destruct Hres as (before & after & Hc & _ & Hp).
  apply reachable_shape in Hw.
  assert (Hin : In p (chain w)) by (rewrite Hc; apply in_elt).
  destruct Hw as [g Hg _ [_ Hh _ _] | g s Hg _ _ [_ Hh _ _] [_ Hh' _ _]];
    rewrite Hg in Hin, Hn; simpl in Hin, Hn.
  - destruct Hin as [<-|[]]. lia.
  - destruct Hin as [<-|[<-|[]]]; lia.
Qed.

Lemma getStars_continue_star_of (address : string) (stars : list json)
    (b : Block.t) :
  Blockchain.getStars_continue address stars (Block.getBData decode b)
  = (stars ++ option_list (star_of address b))%list.
Proof.
  unfold Blockchain.getStars_continue, Block.getBData, star_of.
  destruct (decode (Block.body b)) as [data|err]; simpl.
  - destruct (Block.height b =? 0)%Z; simpl.
    + now rewrite List.app_nil_r.
    + destruct data as [| |n|s|items|props]; simpl;
        rewrite ?andb_false_r, ?List.app_nil_r; try reflexivity.
      destruct (assoc "owner" props) as [[| |n|s|items|props']|]; simpl;
        rewrite ?List.app_nil_r; try reflexivity.
      destruct (bool_decide (s = address)); simpl;
        rewrite ?List.app_nil_r; reflexivity.
  - destruct (Block.height b =? 0)%Z; simpl; now rewrite List.app_nil_r.
Qed.

Lemma getStars_fold (address : string) (bs : list Block.t) (stars : list json) :
  fold_left (Blockchain.getStars_continue address)
    (map (Block.getBData decode) bs) stars
  = (stars ++ omap (star_of address) bs)%list.
Proof.
  revert stars. induction bs as [|b bs IH]; intros stars; simpl.
  - now rewrite List.app_nil_r.
  - rewrite IH, getStars_continue_star_of.
    rewrite <- List.app_assoc. f_equal.
    destruct (star_of address b); reflexivity.
Qed.

(** C7.  [getStarsByWalletAddress(address)] resolves with exactly the
    decoded payloads of the blocks whose decoded [owner] is [address], in the
    order of the chain; the genesis block, which decodes to the marker,
    contributes nothing.  The chain is left alone. *)
Theorem C7_getStarsByWalletAddress_owned_in_order (w : World) (address : string) :
  Blockchain.getStarsByWalletAddress decode address w
  = (Normal (Fulfilled (getStarsByWalletAddress_spec address w)), w).
Proof.
  unfold Blockchain.getStarsByWalletAddress, getStarsByWalletAddress_spec.
  js_unfold. do 3 f_equal.
  change (omap (star_of address) (map (obj w) (chain w)))
    with ([] ++ omap (star_of address) (map (obj w) (chain w)))%list.
  rewrite <- getStars_fold. now rewrite map_map.
Qed.

(** C8.  A block of height 0 whose body decodes resolves [getBData()] with
    the genesis marker, whatever the body decodes to. *)
Theorem C8_getBData_genesis_marker (b : Block.t) (data : json) :
  Block.height b = 0 ->
  decode (Block.body b) = Normal data ->
  Block.getBData decode b = Fulfilled (JStr "** Genesis Block **").
Proof.
  intros Hh Hd. unfold Block.getBData. now rewrite Hd, Hh.
Qed.

(** ** Text without a separator *)

Lemma string_forall_impl (P Q : ascii -> bool) (s : string) :
  (forall c, P c = true -> Q c = true) ->
  string_forall P s = true -> string_forall Q s = true.
Proof.
  intros HPQ. induction s as [|c s IH]; simpl; [reflexivity|].
  intros [Hc Hs]%andb_true_iff. apply andb_true_iff. auto.
Qed.

Lemma string_of_uint_chars (d : Decimal.uint) :
  string_forall number_char (NilEmpty.string_of_uint d) = true.
Proof. induction d; simpl; auto. Qed.

Lemma Number_toString_chars (n : Z) :
  string_forall number_char (Number_toString n) = true.
Proof.
  unfold Number_toString, NilZero.string_of_int, NilZero.string_of_uint.
  destruct (Z.to_int n) as [d|d]; destruct d; simpl;
    rewrite ?string_of_uint_chars; reflexivity.
Qed.

Lemma substring_forall (P : ascii -> bool) (m : nat) (s : string) :
  string_forall P s = true -> string_forall P (substring 0 m s) = true.
Proof.
  revert s. induction m as [|m IH]; intros [|c s]; simpl; try reflexivity.
  intros [Hc Hs]%andb_true_iff. apply andb_true_iff. auto.
Qed.

Lemma seconds_text_chars (now : Z) :
  string_forall number_char (Blockchain.seconds_text now) = true.
Proof. apply substring_forall, Number_toString_chars. Qed.

Lemma number_char_is_not (sep : ascii) (s : string) :
  number_char sep = false ->
  string_forall number_char s = true -> string_forall (is_not sep) s = true.
Proof.
  intros Hsep. apply string_forall_impl. intros c Hc. unfold is_not.
  destruct (Ascii.eqb_spec c sep) as [->|]; [congruence | reflexivity].
Qed.

(** A field that holds no separator is split off whole. *)
Lemma split_field (sep : ascii) (field rest : string) :
  string_forall (is_not sep) field = true ->
  split sep (field +:+ String sep rest) = field :: split sep rest.
Proof.
  induction field as [|c field IH]; intros H.
  - change (split sep (String sep rest) = "" :: split sep rest).
    simpl. now rewrite Ascii.eqb_refl.
  - simpl in H. apply andb_true_iff in H as [Hc Hf].
    change (split sep (String c (field +:+ String sep rest))
            = String c field :: split sep rest).
    simpl. unfold is_not in Hc. apply negb_true_iff in Hc. rewrite Hc.
    now rewrite (IH Hf).
Qed.

Lemma split_last (sep : ascii) (field : string) :
  string_forall (is_not sep) field = true -> split sep field = [field].
Proof.
  induction field as [|c field IH]; intros H; [reflexivity|].
  simpl in H. apply andb_true_iff in H as [Hc Hf].
  simpl. unfold is_not in Hc. apply negb_true_iff in Hc. rewrite Hc.
  now rewrite (IH Hf).
Qed.

(** Two texts that agree up to the first separator agree on both sides
    of it. *)
Lemma first_separator (sep : ascii) (s1 s2 r1 r2 : string) :
  string_forall (is_not sep) s1 = true ->
  string_forall (is_not sep) s2 = true ->
  s1 +:+ String sep r1 = s2 +:+ String sep r2 ->
  s1 = s2 /\ r1 = r2.
Proof.
  revert s2. induction s1 as [|c s1 IH]; intros [|d s2] H1 H2 H.
  - change (String sep r1 = String sep r2) in H. injection H as ->. auto.
  - change (String sep r1 = String d (s2 +:+ String sep r2)) in H.
    injection H as <- _. simpl in H2. unfold is_not in H2.
    rewrite Ascii.eqb_refl in H2. discriminate.
  - change (String c (s1 +:+ String sep r1) = String sep r2) in H.
    injection H as -> _. simpl in H1. unfold is_not in H1.
    rewrite Ascii.eqb_refl in H1. discriminate.
  - change (String c (s1 +:+ String sep r1) = String d (s2 +:+ String sep r2)) in H.
    injection H as -> H. simpl in H1, H2.
    apply andb_true_iff in H1 as [_ H1]. apply andb_true_iff in H2 as [_ H2].
    destruct (IH s2 H1 H2 H) as [-> ->]. auto.
Qed.

(** ** The challenge message *)

(** X1.  For an address without a colon, the message that
    [requestMessageOwnershipVerification] issues splits into the address,
    the clock reading in seconds and the tag, so that [submitStar] reads
    back, as the message's time, the text the request wrote; the message is
    then inside the window at a later clock reading exactly when the two
    readings parse and lie less than 300 seconds apart. *)
Theorem requestMessage_time_round_trip (w : World) (address : string)
    (now : Z) :
  string_forall (is_not ":") address = true ->
  exists message : string,
    Blockchain.requestMessageOwnershipVerification address now w
    = (Normal (Fulfilled message), w)
    /\ split ":" message
       = [address; Blockchain.seconds_text now; "starRegistry"]
    /\ Blockchain.message_time_field message = Blockchain.seconds_text now
    /\ forall later : Z,
         in_time_window message later
         = num_lt (num_sub (parseInt (Blockchain.seconds_text later))
                           (parseInt (Blockchain.seconds_text now)))
                  (Some 300).
Proof.
  intros Haddr. eexists. split; [reflexivity|].
  assert (Hsplit : split ":"
            (address +:+ ":" +:+ Blockchain.seconds_text now +:+ ":starRegistry")
          = [address; Blockchain.seconds_text now; "starRegistry"]).
  { change (split ":"
              (address +:+ String ":" (Blockchain.seconds_text now
                 +:+ String ":" "starRegistry"))
            = [address; Blockchain.seconds_text now; "starRegistry"]).
    rewrite (split_field ":" address) by exact Haddr.
    rewrite (split_field ":" (Blockchain.seconds_text now))
      by (apply number_char_is_not; [reflexivity | apply seconds_text_chars]).
    reflexivity. }
  assert (Hfield : Blockchain.message_time_field
            (address +:+ ":" +:+ Blockchain.seconds_text now +:+ ":starRegistry")
          = Blockchain.seconds_text now).
  { unfold Blockchain.message_time_field. now rewrite Hsplit. }
  split; [exact Hsplit|]. split; [exact Hfield|].
  intros later. unfold in_time_window. now rewrite Hfield.
Qed.

(** ** [validateChain] in any state *)

Lemma same_content_refl (b : Block.t) : same_content b b.
Proof. repeat split. Qed.

Lemma same_content_trans (b1 b2 b3 : Block.t) :
  same_content b1 b2 -> same_content b2 b3 -> same_content b1 b3.
Proof.
  intros (H1 & H2 & H3 & H4) (K1 & K2 & K3 & K4).
  repeat split; congruence.
Qed.

Lemma obj_rehash_at (w : World) (r r' : Ref) :
  obj (rehash_at r w) r'
  = if decide (r = r' /\ (r < length (objects w))%nat)
    then rehash (obj w r) else obj w r'.
Proof.
  unfold obj, rehash_at. simpl. rewrite list_lookup_total_insert.
  destruct (decide _); reflexivity.
Qed.

Lemma frame_on_refl (l : list Ref) (w : World) : frame_on l w w.
Proof. split; auto using same_content_refl. Qed.

Lemma frame_on_rehash_at (w : World) (r : Ref) (l : list Ref) :
  0 < Block.height (obj w r) ->
  frame_on (r :: l) w (rehash_at r w).
Proof.
  intros Hr. split.
  - reflexivity.
  - reflexivity.
  - unfold rehash_at. simpl. apply length_insert.
  - intros r'. rewrite obj_rehash_at.
    destruct (decide _) as [[<- _]|_]; [|apply same_content_refl].
    repeat split.
  - intros r' Hr'. rewrite obj_rehash_at.
    destruct (decide _) as [[<- _]|_]; [|reflexivity].
    exfalso. destruct Hr' as [Hn|Hh]; [apply Hn; now left | lia].
Qed.

(** The three ways a visit of [validateChain] to one block ends. *)
Lemma callback_cases (w : World) (log : list string) (r : Ref) (i : nat) :
  (Block.height (obj w r) <= 0
   /\ Blockchain.validateChain_callback SHA256 log r i w = (Normal log, w))
  \/ (0 < Block.height (obj w r)
      /\ array_get (chain w) (Z.of_nat i - 1) = None
      /\ Blockchain.validateChain_callback SHA256 log r i w
         = (Throw Blockchain.TypeError_undefined, w))
  \/ (0 < Block.height (obj w r)
      /\ exists p : Ref,
           array_get (chain w) (Z.of_nat i - 1) = Some p
           /\ Blockchain.validateChain_callback SHA256 log r i w
              = (Normal (log ++ linkage_errors i (obj w r) (obj w p))%list,
                 rehash_at r w)).
Proof.
  destruct (Z_lt_le_dec 0 (Block.height (obj w r))) as [Hpos|Hle].
  - destruct (array_get (chain w) (Z.of_nat i - 1)) as [p|] eqn:Hp.
    + right. right. split; [exact Hpos|]. exists p. split; [reflexivity|].
      now apply callback_check.
    + right. left. auto using callback_throw.
  - left. auto using callback_skip.
Qed.

Lemma linkage_errors_are_linkage (i : nat) (b pb : Block.t) :
  Forall is_linkage_error (linkage_errors i b pb)
  /\ (length (linkage_errors i b pb) <= 1)%nat.
Proof.
  unfold linkage_errors. destruct (bool_decide _); simpl.
  - split; [constructor | lia].
  - split; [|lia]. repeat constructor. now exists i, b, pb.
Qed.

(** A traversal changes stored hashes only, and what it adds to the log are
    linkage errors, at most one for each block visited. *)
Lemma forEach_callback_frame (l : list Ref) :
  forall (i : nat) (log : list string) (w : World)
         (res : Completion (list string)) (w' : World),
    forEach (Blockchain.validateChain_callback SHA256) l i log w = (res, w') ->
    frame_on l w w'
    /\ forall log', res = Normal log' ->
         exists added : list string,
           log' = (log ++ added)%list
           /\ Forall is_linkage_error added
           /\ (length added <= length l)%nat.
Proof.
  induction l as [|x l IH]; intros i log w res w' H.
  - simpl in H. injection H as <- <-. split; [apply frame_on_refl|].
    intros log' [= <-]. exists []. rewrite List.app_nil_r. auto.
  - cbn [forEach] in H. unfold bind in H.
    destruct (callback_cases w log x i)
      as [(Hle & Hcb) | [(Hpos & _ & Hcb) | (Hpos & p & _ & Hcb)]];
      rewrite Hcb in H.
    + apply IH in H as [Hf Hlog]. split.
      * destruct Hf as [F1 F2 F3 F4 F5]. split; auto.
        intros r [Hn|Hh]; apply F5; [|now right].
        left. intros Hin. apply Hn. now right.
      * intros log' Hres. destruct (Hlog log' Hres) as (added & -> & Ha & Hl).
        exists added. simpl. auto.
    + injection H as <- <-. split; [apply frame_on_refl|]. discriminate.
    + apply IH in H as [Hf Hlog].
      pose proof (frame_on_rehash_at w x l Hpos) as Hx.
      destruct Hf as [F1 F2 F3 F4 F5], Hx as [G1 G2 G3 G4 G5]. split.
      * split; try congruence.
        -- intros r. eapply same_content_trans; [apply G4 | apply F4].
        -- intros r Hr. rewrite <- (G5 r Hr). apply F5.
           destruct Hr as [Hn|Hh].
           ++ left. intros Hin. apply Hn. now right.
           ++ right. destruct (G4 r) as (Hheight & _). lia.
      * intros log' Hres. destruct (Hlog log' Hres) as (added & -> & Ha & Hl).
        destruct (linkage_errors_are_linkage i (obj w x) (obj w p)) as [Hk Hk1].
        exists (linkage_errors i (obj w x) (obj w p) ++ added)%list.
        rewrite List.app_assoc. split; [reflexivity|]. split.
        -- apply Forall_app. auto.
        -- rewrite length_app. simpl. lia.
Qed.

Lemma validateChain_unfold (w : World) :
  Blockchain.validateChain SHA256 w
  = match forEach (Blockchain.validateChain_callback SHA256) (chain w) 0 [] w with
    | (Normal log, w') => (Normal (Fulfilled log), w')
    | (Throw _, w') =>
        (Normal (Rejected (Error.new "Could not validate chain.")), w')
    end.
Proof.
  unfold Blockchain.validateChain. js_unfold.
  destruct (forEach _ _ _ _ _) as [[log|e] w']; reflexivity.
Qed.

(** Past the first block every block has a predecessor to read. *)
Lemma forEach_callback_no_throw (l : list Ref) :
  forall (pre : list Ref) (log : list string) (w : World),
    chain w = (pre ++ l)%list -> pre <> [] ->
    exists (log' : list string) (w' : World),
      forEach (Blockchain.validateChain_callback SHA256) l (length pre) log w
      = (Normal log', w').
Proof.
  induction l as [|x l IH]; intros pre log w Hc Hpre.
  - simpl. eauto.
  - assert (Hnext : forall w1 : World, chain w1 = chain w ->
              chain w1 = ((pre ++ [x]) ++ l)%list)
      by (intros w1 ->; now rewrite Hc, <- List.app_assoc).
    assert (Hidx : S (length pre) = length (pre ++ [x])%list)
      by (rewrite length_app; simpl; lia).
    cbn [forEach]. unfold bind.
    destruct (callback_cases w log x (length pre))
      as [(_ & Hcb) | [(_ & Hnone & _) | (_ & p & _ & Hcb)]].
    + rewrite Hcb, Hidx. apply IH; [now apply Hnext | now destruct pre].
    + exfalso. unfold array_get in Hnone.
      destruct pre as [|y pre]; [congruence|].
      replace (Z.of_nat (length (y :: pre)) - 1) with (Z.of_nat (length pre))
        in Hnone by (simpl length; lia).
      destruct (Z.ltb_spec (Z.of_nat (length pre)) 0) as [|_]; [lia|].
      rewrite Nat2Z.id, Hc in Hnone.
      apply lookup_ge_None in Hnone. rewrite length_app in Hnone.
      simpl in Hnone. lia.
    + rewrite Hcb, Hidx. apply IH; [now apply Hnext | now destruct pre].
Qed.

Lemma forEach_after_head (w : World) (g : Ref) (rest : list Ref) :
  chain w = g :: rest ->
  Block.height (obj w g) <= 0 ->
  forEach (Blockchain.validateChain_callback SHA256) (chain w) 0 [] w
  = forEach (Blockchain.validateChain_callback SHA256) rest 1 [] w.
Proof.
  intros Hc Hg. rewrite Hc. cbn [forEach]. unfold bind.
  now rewrite callback_skip.
Qed.

Lemma hashMismatch_is_not_blockInvalid (i j : nat) (b pb b' : Block.t) :
  Blockchain.hashMismatchError i b pb <> Blockchain.blockInvalidError j b'.
Proof.
  unfold Blockchain.hashMismatchError, Blockchain.blockInvalidError.
  intros H. apply String.app_inj in H.
  change (Number_toString (Z.of_nat i)
            +:+ String " " ("Hash Mismatch :: PreviousBlockHash "
              +:+ template (Block.previousBlockHash b)
              +:+ ", Required PreviousBlockHash " +:+ template (Block.hash pb))
          = Number_toString (Z.of_nat j)
            +:+ String " " ("Invalid :: Hash ("
              +:+ template (Block.hash b') +:+ ")")) in H.
  apply first_separator in H as [_ H];
    try (apply number_char_is_not; [reflexivity | apply Number_toString_chars]).
  discriminate H.
Qed.

(** X2.  In any state, tampered with or not, [validateChain()] leaves the
    [chain] array, the [height] counter and the number of objects as they
    are, and the [height], [body], [time] and [previousBlockHash] of every
    block; a block that is not in the chain, or whose height is not
    positive, is left untouched altogether.  Only stored hashes change. *)
Theorem validateChain_changes_hashes_only (w : World) :
  only_hashes_differ w (snd (Blockchain.validateChain SHA256 w)).
Proof.
  rewrite validateChain_unfold.
  destruct (forEach _ (chain w) 0%nat [] w) as [res w'] eqn:H.
  apply forEach_callback_frame in H as [Hf _].
  destruct res; exact Hf.
Qed.

(** X3.  In any state, a log that [validateChain()] resolves with holds
    linkage errors only, at most one for each block after the first: no
    entry is a tamper error, for any index and any hash. *)
Theorem validateChain_logs_linkage_errors_only (w w' : World)
    (log : list string) :
  Blockchain.validateChain SHA256 w = (Normal (Fulfilled log), w') ->
  Forall is_linkage_error log
  /\ (forall (index : nat) (b : Block.t),
        ~ In (Blockchain.blockInvalidError index b) log)
  /\ (length log <= Nat.pred (length (chain w)))%nat.
Proof.
  rewrite validateChain_unfold. intros H.
  assert (Hlog : Forall is_linkage_error log
                 /\ (length log <= Nat.pred (length (chain w)))%nat).
  { destruct (chain w) as [|g rest] eqn:Hc.
    - simpl in H. injection H as <- _. split; [constructor | simpl; lia].
    - destruct (Z_lt_le_dec 0 (Block.height (obj w g))) as [Hpos|Hle].
      + rewrite <- Hc in H. cbn [forEach] in H. rewrite Hc in H.
        cbn [forEach] in H. unfold bind in H.
        rewrite (callback_throw w [] g 0 Hpos) in H
          by (rewrite Hc; reflexivity).
        discriminate H.
      + rewrite <- Hc, (forEach_after_head w g rest Hc Hle) in H.
        destruct (forEach _ rest 1%nat [] w) as [[log'|e] w1] eqn:Hrest;
          [|discriminate H].
        injection H as -> ->.
        apply forEach_callback_frame in Hrest as [_ Hrest].
        destruct (Hrest log eq_refl) as (added & -> & Ha & Hl).
        simpl. auto. }
  destruct Hlog as [Hlink Hlen]. split; [exact Hlink|]. split; [|exact Hlen].
  intros index b Hin.
  rewrite Forall_forall in Hlink. apply list_elem_of_In in Hin.
  destruct (Hlink _ Hin) as (i & b1 & pb & Heq).
  symmetry in Heq. exact (hashMismatch_is_not_blockInvalid _ _ _ _ _ Heq).
Qed.

(** X4.  [validateChain()] never throws.  It rejects exactly when the first
    block of the chain has a positive height, which leaves it without a
    predecessor to read; the rejection is the one generic error and the
    state is untouched.  In every other state it resolves with a log. *)
Theorem validateChain_rejects_on_first_block_only (w : World) :
  match chain w with
  | [] => Blockchain.validateChain SHA256 w = (Normal (Fulfilled []), w)
  | g :: _ =>
      if (0 <? Block.height (obj w g))%Z then
        Blockchain.validateChain SHA256 w
        = (Normal (Rejected (Error.new "Could not validate chain.")), w)
      else
        exists (log : list string) (w' : World),
          Blockchain.validateChain SHA256 w = (Normal (Fulfilled log), w')
  end.
Proof.
  destruct (chain w) as [|g rest] eqn:Hc.
  - rewrite validateChain_unfold, Hc. reflexivity.
  - destruct (Z.ltb_spec 0 (Block.height (obj w g))) as [Hpos|Hle].
    + now apply (validateChain_rejects w g rest).
    + rewrite validateChain_unfold, (forEach_after_head w g rest Hc Hle).
      destruct (forEach_callback_no_throw rest [g] [] w Hc) as (log & w' & Heq);
        [discriminate|].
      change (length [g]) with 1%nat in Heq. rewrite Heq. eauto.
Qed.

(** ** Admission in any state *)

Lemma validateChain_frame (w : World) :
  frame_on (chain w) w (snd (Blockchain.validateChain SHA256 w)).
Proof.
  rewrite validateChain_unfold.
  destruct (forEach _ (chain w) 0%nat [] w) as [res w'] eqn:H.
  apply forEach_callback_frame in H as [Hf _].
  destruct res; exact Hf.
Qed.


Lemma staged_old (data : json) (now : Z) (w : World) (r : Ref) :
  (r < length (objects w))%nat -> obj (staged data now w) r = obj w r.
Proof.
  intros Hr. unfold obj, staged, prepare_at. simpl.
  rewrite list_lookup_total_insert_ne by lia.
  now rewrite lookup_total_app_l.
Qed.

Lemma staged_new (data : json) (now : Z) (w : World) :
  obj (staged data now w) (length (objects w))
  = prepared (length (chain w)) now (Block.constructor encode data).
Proof.
  unfold obj, staged, prepare_at. simpl.
  rewrite list_lookup_total_insert_eq by (rewrite length_app; simpl; lia).
  rewrite lookup_total_app_r by lia. now rewrite Nat.sub_diag.
Qed.

Lemma staged_length (data : json) (now : Z) (w : World) :
  length (objects (staged data now w)) = S (length (objects w)).
Proof.
  unfold staged, prepare_at. simpl.
  rewrite length_insert, length_app. simpl. lia.
Qed.

(** What [_addBlock] makes of a new block, in any state: it validates the
    staged world, then appends the block or not. *)
Lemma admit_new_outcome (w : World) (data : json) (now : Z) :
  let w3 := snd (Blockchain.validateChain SHA256 (staged data now w)) in
  (admit_new data now w
   = (Normal (Fulfilled (Some (length (objects w)))),
      push (length (objects w)) w3)
   /\ fst (Blockchain.validateChain SHA256 (staged data now w))
      = Normal (Fulfilled []))
  \/ (snd (admit_new data now w) = w3
      /\ fst (admit_new data now w) <> Normal (Fulfilled (Some (length (objects w))))
      /\ fst (Blockchain.validateChain SHA256 (staged data now w))
         <> Normal (Fulfilled [])).
Proof.
  intros w3. subst w3. rewrite admit_new_eq.
  rewrite _addBlock_eq by (simpl; rewrite length_app; simpl; lia).
  fold (staged data now w).
  destruct (Blockchain.validateChain SHA256 (staged data now w))
    as [[[[|e log]|e]|e] w3]; simpl.
  - left. auto.
  - right. repeat split; discriminate.
  - right. repeat split; discriminate.
  - right. repeat split; discriminate.
Qed.

Lemma admit_new_frame (w : World) (data : json) (now : Z) :
  appended w (snd (admit_new data now w))
  /\ keeps_blocks w (snd (admit_new data now w))
  /\ same_content
       (prepared (length (chain w)) now (Block.constructor encode data))
       (obj (snd (admit_new data now w)) (length (objects w))).
Proof.
  pose proof (validateChain_frame (staged data now w)) as [F1 F2 F3 F4 F5].
  assert (Hobjects : forall w' : World,
            objects w' = objects (snd (Blockchain.validateChain SHA256
                                         (staged data now w))) ->
            keeps_blocks w w'
            /\ same_content
                 (prepared (length (chain w)) now (Block.constructor encode data))
                 (obj w' (length (objects w)))).
  { intros w' Hw'.
    assert (Hobj : forall r : Ref,
              obj w' r = obj (snd (Blockchain.validateChain SHA256
                                     (staged data now w))) r)
      by (intros r; unfold obj; now rewrite Hw').
    split; [split|].
    - rewrite Hw', F3, staged_length. lia.
    - intros r Hr. rewrite Hobj, <- (staged_old data now w r Hr). split.
      + apply F4.
      + intros Hcond. apply F5. exact Hcond.
    - rewrite Hobj, <- staged_new. apply F4. }
  destruct (admit_new_outcome w data now) as [(Hrun & _) | (Hw & _)].
  - rewrite Hrun. cbn [snd]. split; [|now apply Hobjects].
    right. simpl. rewrite F1, F2. auto.
  - rewrite Hw. split; [|now apply Hobjects].
    left. rewrite F1, F2. auto.
Qed.



(** X6.  [submitStar] fulfils exactly when both times parse, the current
    time is less than 300 seconds past the message's time (a message dated
    in the future passes) and [verify] returns [true]. *)
Theorem submitStar_fulfils_iff (w : World)
    (address message signature : string) (star : json) (now now' : Z) :
  (exists (block : Ref) (w' : World),
     Blockchain.submitStar SHA256 encode verify parseInt
       address message signature star now now' w
     = (Normal (Fulfilled block), w'))
  <-> (exists passedTime currentTime : Z,
         parseInt (Blockchain.message_time_field message) = Some passedTime
         /\ parseInt (Blockchain.seconds_text now) = Some currentTime
         /\ currentTime - passedTime < 300
         /\ verify message address signature = Normal true).
Proof.
  rewrite submitStar_eq. unfold in_time_window, num_lt, num_sub.
  destruct (parseInt (Blockchain.seconds_text now)) as [c|];
    destruct (parseInt (Blockchain.message_time_field message)) as [p|];
    try (split; [intros (b & w' & H); discriminate H
                | intros (p' & c' & H1 & H2 & _); discriminate]).
  destruct (Z.ltb_spec (c - p) 300) as [Hlt|Hge].
  - destruct (verify message address signature) as [[|]|e].
    + split; [|eauto]. intros _. exists p, c. auto.
    + split; [intros (b & w' & H); discriminate H
             | intros (p' & c' & _ & _ & _ & H); discriminate H].
    + split; [intros (b & w' & H); discriminate H
             | intros (p' & c' & _ & _ & _ & H); discriminate H].
  - split; [intros (b & w' & H); discriminate H|].
    intros (p' & c' & [= <-] & [= <-] & Hlt & _). lia.
Qed.

(** X7.  When [submitStar] fulfils, in any state, the block it resolves
    with is the object created by the call, and that block has the chain's
    length as its [height], the clock reading of [_addBlock] as its [time],
    the encoded [{owner, star}] as its [body] and a [null]
    [previousBlockHash]; whether it was appended or not. *)
Theorem submitStar_resolves_with_new_block (w w' : World)
    (address message signature : string) (star : json) (now now' : Z)
    (block : Ref) :
  Blockchain.submitStar SHA256 encode verify parseInt
    address message signature star now now' w
  = (Normal (Fulfilled block), w') ->
  block = length (objects w)
  /\ (block < length (objects w'))%nat
  /\ Block.height (obj w' block) = Z.of_nat (length (chain w))
  /\ Block.time (obj w' block) = now'
  /\ Block.body (obj w' block)
     = encode (Blockchain.star_data address star)
  /\ Block.previousBlockHash (obj w' block) = None.
Proof.
  rewrite submitStar_eq.
  destruct (in_time_window message now); [|discriminate].
  destruct (verify message address signature) as [[|]|e]; try discriminate.
  intros [= <- <-].
  destruct (admit_new_frame w (Blockchain.star_data address star) now')
    as (_ & (Hlen & _) & (H1 & H2 & H3 & H4)).
  split; [reflexivity|]. split.
  - pose proof (validateChain_frame
                  (staged (Blockchain.star_data address star) now' w))
      as [_ _ F3 _ _].
    destruct (admit_new_outcome w (Blockchain.star_data address star) now')
      as [(Hrun & _) | (Hw & _)].
    + rewrite Hrun. cbn [snd push set_height set_chain objects].
      rewrite F3, staged_length. lia.
    + rewrite Hw, F3, staged_length. lia.
  - rewrite H1, H2, H3, H4. repeat split.
Qed.

(** ** Repeated self-validation *)

Lemma rehash_fixed (b : Block.t) :
  Block.hash b = Block.hash (rehash b) -> rehash b = b.
Proof.
  intros H. unfold rehash.
  change (Some (SHA256 (Block.JSON_stringify b))) with (Block.hash (rehash b)).
  rewrite <- H. apply set_hash_same.
Qed.

(** X8.  With a collision-free digest, calling [validate()] again gives the
    same answer: a block that validates is left as it is, and one that does
    not has its stored hash replaced by another value and does not validate
    the next time either. *)
Theorem validate_answers_the_same_again (b : Block.t) :
  collision_free ->
  fst (Block.validate SHA256 (snd (Block.validate SHA256 b)))
  = fst (Block.validate SHA256 b)
  /\ ((fst (Block.validate SHA256 b) = Fulfilled true
       /\ snd (Block.validate SHA256 b) = b)
      \/ (fst (Block.validate SHA256 b) = Fulfilled false
          /\ Block.hash (snd (Block.validate SHA256 b)) <> Block.hash b)).
Proof.
  intros Hcf. rewrite !validate_eq. cbn [fst snd].
  assert (Hiff : Block.hash (rehash b) = Block.hash (rehash (rehash b))
                 <-> Block.hash b = Block.hash (rehash b)).
  { split.
    - intros [= H]. apply Hcf in H.
      rewrite <- (set_hash_same b) in H at 1.
      now apply JSON_stringify_hash_inj in H.
    - intros H. now rewrite !(rehash_fixed b H). }
  split.
  - f_equal. now apply bool_decide_ext.
  - destruct (decide (Block.hash b = Block.hash (rehash b))) as [Heq|Hne].
    + left. split.
      * f_equal. now apply bool_decide_eq_true.
      * now apply rehash_fixed.
    + right. split.
      * f_equal. now apply bool_decide_eq_false.
      * intros H. apply Hne. now symmetry.
Qed.

(** ** The hashed text determines the block *)

Lemma append_assoc (s1 s2 s3 : string) :
  (s1 +:+ s2) +:+ s3 = s1 +:+ (s2 +:+ s3).
Proof.
  induction s1 as [|c s1 IH]; [reflexivity|].
  change (String c ((s1 +:+ s2) +:+ s3) = String c (s1 +:+ (s2 +:+ s3))).
  now rewrite IH.
Qed.

Lemma escape_char_append (c : ascii) (rest tail : string) :
  escape_char c rest +:+ tail = escape_char c (rest +:+ tail).
Proof. destruct c as [[] [] [] [] [] [] [] []]; reflexivity. Qed.

Lemma escape_char_not_dquote (c : ascii) (rest tail : string) :
  escape_char c rest <> String dquote tail.
Proof. destruct c as [[] [] [] [] [] [] [] []]; discriminate. Qed.

(** An escaped text ends at the first bare quotation mark. *)
Lemma escape_delimited (s1 s2 r1 r2 : string) :
  escape s1 +:+ String dquote r1 = escape s2 +:+ String dquote r2 ->
  s1 = s2 /\ r1 = r2.
Proof.
  revert s2. induction s1 as [|c s1 IH]; intros [|d s2] H.
  - change (String dquote r1 = String dquote r2) in H.
    injection H as ->. auto.
  - exfalso. cbn [escape] in H. rewrite escape_char_append in H.
    change (String dquote r1
            = escape_char d (escape s2 +:+ String dquote r2)) in H.
    symmetry in H. exact (escape_char_not_dquote _ _ _ H).
  - exfalso. cbn [escape] in H. rewrite escape_char_append in H.
    change (escape_char c (escape s1 +:+ String dquote r1)
            = String dquote r2) in H.
    exact (escape_char_not_dquote _ _ _ H).
  - cbn [escape] in H. rewrite !escape_char_append in H.
    apply (f_equal unescape_head) in H.
    rewrite !unescape_head_escape_char in H.
    injection H as -> H. destruct (IH s2 H) as [-> ->]. auto.
Qed.

Lemma JSON_quote_delimited (s1 s2 r1 r2 : string) :
  JSON_quote s1 +:+ r1 = JSON_quote s2 +:+ r2 -> s1 = s2 /\ r1 = r2.
Proof.
  unfold JSON_quote. intros H.
  change (String dquote ((escape s1 +:+ String dquote "") +:+ r1)
          = String dquote ((escape s2 +:+ String dquote "") +:+ r2)) in H.
  injection H as H. rewrite !append_assoc in H.
  now apply escape_delimited.
Qed.

Lemma JSON_string_or_null_delimited (h1 h2 : option string) (r1 r2 : string) :
  JSON_string_or_null h1 +:+ r1 = JSON_string_or_null h2 +:+ r2 ->
  h1 = h2 /\ r1 = r2.
Proof.
  destruct h1 as [a|], h2 as [b|]; simpl; intros H.
  - apply JSON_quote_delimited in H as [-> ->]. auto.
  - discriminate H.
  - discriminate H.
  - apply String.app_inj in H. auto.
Qed.

Lemma Number_toString_inj (n m : Z) :
  Number_toString n = Number_toString m -> n = m.
Proof.
  assert (Hnil : forall z : Z,
            Z.to_int z <> Decimal.Pos Decimal.Nil
            /\ Z.to_int z <> Decimal.Neg Decimal.Nil).
  { intros [|p|p]; simpl; split; try discriminate;
      intros [= H]; exact (Unsigned.to_uint_nonnil p H). }
  unfold Number_toString. intros H.
  apply (f_equal NilZero.int_of_string) in H.
  rewrite !NilZero.isi in H by apply Hnil.
  injection H as H. now apply to_int_inj.
Qed.

Lemma Number_toString_delimited (n m : Z) (r1 r2 : string) :
  Number_toString n +:+ String "," r1 = Number_toString m +:+ String "," r2 ->
  n = m /\ r1 = r2.
Proof.
  intros H.
  apply first_separator in H as [H ->];
    try (apply number_char_is_not; [reflexivity | apply Number_toString_chars]).
  split; [now apply Number_toString_inj | reflexivity].
Qed.

Lemma JSON_stringify_inj (b1 b2 : Block.t) :
  Block.JSON_stringify b1 = Block.JSON_stringify b2 -> b1 = b2.
Proof.
  destruct b1 as [h1 n1 s1 t1 p1], b2 as [h2 n2 s2 t2 p2].
  unfold Block.JSON_stringify.
  cbn [Block.hash Block.height Block.body Block.time Block.previousBlockHash].
  intros H. do 2 apply String.app_inj in H.
  apply JSON_string_or_null_delimited in H as [-> H].
  do 2 apply String.app_inj in H.
  apply Number_toString_delimited in H as [-> H].
  apply String.app_inj in H.
  apply JSON_quote_delimited in H as [-> H].
  do 2 apply String.app_inj in H.
  apply Number_toString_delimited in H as [-> H].
  apply String.app_inj in H.
  apply JSON_string_or_null_delimited in H as [-> _].
  reflexivity.
Qed.

(** X9.  With a collision-free digest, two blocks that [_addBlock] or
    [validate()] gave the same hash were equal in all five properties when
    they were hashed: the serialisation that is hashed determines the
    block. *)
Theorem equal_hashes_come_from_equal_blocks (b1 b2 : Block.t) :
  collision_free ->
  Block.hash (rehash b1) = Block.hash (rehash b2) ->
  b1 = b2.
Proof. intros Hcf [= H]. now apply JSON_stringify_inj, Hcf. Qed.

(** ** Lookup by hash *)

Lemma getBlockByHash_eq (w : World) (h : string) :
  Blockchain.getBlockByHash h w
  = (Normal (Fulfilled
       (filter (fun r => Block.hash (obj w r) = Some h) (chain w))), w).
Proof. reflexivity. Qed.

(** X10.  [getBlockByHash(hash)] never throws and never rejects, and leaves
    the world alone.  It resolves with the blocks of the chain whose stored
    hash is the argument, all of them and no other, in chain order; with
    the empty array when there is none. *)
Theorem getBlockByHash_all_matches_in_order (w : World) (h : string) :
  exists blocks : list Ref,
    Blockchain.getBlockByHash h w = (Normal (Fulfilled blocks), w)
    /\ sublist blocks (chain w)
    /\ forall r : Ref,
         In r blocks <-> In r (chain w) /\ Block.hash (obj w r) = Some h.
Proof.
  eexists. split; [apply getBlockByHash_eq|]. split.
  - apply sublist_filter.
  - intros r. rewrite <- !list_elem_of_In, list_elem_of_filter. tauto.
Qed.

Lemma hashed_is_rehash (b : Block.t) : hashed b -> exists b0, b = rehash b0.
Proof. intros [b0 _|b0 _]; eauto. Qed.

(** Blocks of different heights never share a hash. *)
Lemma hashed_distinct (b1 b2 : Block.t) :
  collision_free -> hashed b1 -> hashed b2 ->
  Block.height b1 <> Block.height b2 ->
  Block.hash b1 <> Block.hash b2.
Proof.
  intros Hcf [a1 ->]%hashed_is_rehash [a2 ->]%hashed_is_rehash Hh [= H].
  apply Hcf, JSON_stringify_inj in H. subst a2. now apply Hh.
Qed.

(** ** What the queries read *)

Lemma getStars_eq (w : World) (address : string) :
  Blockchain.getStarsByWalletAddress decode address w
  = (Normal (Fulfilled (getStarsByWalletAddress_spec address w)), w).
Proof.
  unfold Blockchain.getStarsByWalletAddress, getStarsByWalletAddress_spec.
  js_unfold. do 3 f_equal.
  change (omap (star_of address) (map (obj w) (chain w)))
    with ([] ++ omap (star_of address) (map (obj w) (chain w)))%list.
  rewrite <- getStars_fold. now rewrite map_map.
Qed.

Lemma star_of_same_content (address : string) (b b' : Block.t) :
  same_content b b' -> star_of address b' = star_of address b.
Proof. intros (Hh & Hb & _). unfold star_of. now rewrite Hh, Hb. Qed.

Lemma stars_cons (address : string) (b : Block.t) (bs : list Block.t) :
  omap (star_of address) (b :: bs)
  = (option_list (star_of address b) ++ omap (star_of address) bs)%list.
Proof. simpl. destruct (star_of address b); reflexivity. Qed.

Lemma stars_same_content (address : string) (w w' : World) (l : list Ref) :
  (forall r, In r l -> same_content (obj w r) (obj w' r)) ->
  omap (star_of address) (map (obj w') l)
  = omap (star_of address) (map (obj w) l).
Proof.
  induction l as [|x l IH]; intros H; [reflexivity|].
  cbn [map]. rewrite !stars_cons.
  rewrite (star_of_same_content address (obj w x) (obj w' x))
    by (apply H; now left).
  rewrite IH by (intros r Hr; apply H; now right). reflexivity.
Qed.

Lemma filter_height_same (w w' : World) (h : Z) (l : list Ref) :
  (forall r, In r l -> Block.height (obj w' r) = Block.height (obj w r)) ->
  filter (fun p => Block.height (obj w' p) = h) l
  = filter (fun p => Block.height (obj w p) = h) l.
Proof.
  induction l as [|x l IH]; intros H; [reflexivity|].
  rewrite !filter_cons, IH by (intros r Hr; apply H; now right).
  rewrite (H x) by now left. reflexivity.
Qed.

(** X15.  In any state, what [getBlockByHeight] and
    [getStarsByWalletAddress] resolve with is the same before and after a
    run of [validateChain()]. *)
Theorem validateChain_keeps_query_results (w : World) (n : Z)
    (address : string) :
  let w' := snd (Blockchain.validateChain SHA256 w) in
  fst (Blockchain.getBlockByHeight n w') = fst (Blockchain.getBlockByHeight n w)
  /\ fst (Blockchain.getStarsByWalletAddress decode address w')
     = fst (Blockchain.getStarsByWalletAddress decode address w).
Proof.
  cbv zeta. pose proof (validateChain_frame w) as [F1 _ _ F4 _].
  rewrite !getBlockByHeight_eq, !getStars_eq. cbn [fst].
  unfold getStarsByWalletAddress_spec. rewrite F1. split.
  - do 3 f_equal. apply filter_height_same. intros r _. apply F4.
  - do 2 f_equal. apply stars_same_content. intros r _. apply F4.
Qed.

(** ** Star payloads *)

Lemma star_of_star_data (address : string) (star : json) (b : Block.t) :
  Block.height b <> 0 ->
  decode (Block.body b) = Normal (Blockchain.star_data address star) ->
  star_of address b = Some (Blockchain.star_data address star).
Proof.
  intros Hh Hd. unfold star_of. rewrite Hd.
  destruct (Z.eqb_spec (Block.height b) 0) as [|_]; [contradiction|].
  unfold owner_is, Blockchain.star_data. cbn [assoc].
  rewrite !bool_decide_eq_true_2 by reflexivity. reflexivity.
Qed.

(** ** Decoding a block *)

(** X20.  A block that has been constructed but not admitted decodes to
    the genesis marker, because the constructor gives it height 0; with a
    height other than 0 it decodes to the data it was constructed from,
    provided the codec reads back what it wrote. *)
Theorem getBData_of_a_constructed_block (data : json) (n : Z) :
  decode (encode data) = Normal data ->
  n <> 0 ->
  Block.getBData decode (Block.constructor encode data)
  = Fulfilled (JStr "** Genesis Block **")
  /\ Block.getBData decode (Block.set_height n (Block.constructor encode data))
     = Fulfilled data.
Proof.
  intros Hd Hn. unfold Block.getBData. cbn [Block.body Block.height
    Block.set_height Block.constructor]. rewrite Hd. split; [reflexivity|].
  destruct (Z.eqb_spec n 0); [contradiction | reflexivity].
Qed.

(** ** The structural check and the acceptance test *)

(** X21.  On a chain of two blocks, the first of height 0 and the second of
    positive height, the log of [validateChain()] is empty exactly when the
    second block's [previousBlockHash] equals the hash stored for the
    first. *)
Theorem validateChain_accepts_a_linked_pair (w : World) (g s : Ref) :
  chain w = [g; s] ->
  Block.height (obj w g) = 0 ->
  0 < Block.height (obj w s) ->
  fst (Blockchain.validateChain SHA256 w) = Normal (Fulfilled [])
  <-> Block.previousBlockHash (obj w s) = Block.hash (obj w g).
Proof.
  intros Hc Hg Hs. rewrite (validateChain_two w g s Hc Hg Hs). cbn [fst].
  unfold linkage_errors.
  destruct (bool_decide_reflect
              (Block.previousBlockHash (obj w s) = Block.hash (obj w g)))
    as [Heq|Hne].
  - split; auto.
  - split; [discriminate | contradiction].
Qed.

(** X22.  Whether [submitStar] fulfils does not depend on the state of the
    chain: a submission that was fulfilled once is fulfilled again, with the
    same message and signature, at the same clock reading, in any state. *)
Theorem submitStar_acceptance_ignores_the_chain (w1 w2 : World)
    (address message signature : string) (star1 star2 : json)
    (now now1 now2 : Z) :
  (exists (block : Ref) (w' : World),
     Blockchain.submitStar SHA256 encode verify parseInt
       address message signature star1 now now1 w1
     = (Normal (Fulfilled block), w')) ->
  exists (block : Ref) (w' : World),
    Blockchain.submitStar SHA256 encode verify parseInt
      address message signature star2 now now2 w2
    = (Normal (Fulfilled block), w').
Proof.
  rewrite !submitStar_eq.
  destruct (in_time_window message now);
    [|intros (b & w' & H); discriminate H].
  destruct (verify message address signature) as [[|]|e];
    try (intros (b & w' & H); discriminate H).
  intros _. eauto.
Qed.

(** ** Calls and continuations *)

Lemma validateChain_validation (w : World) :
  Blockchain.validateChain SHA256 w
  = (Normal (validation w), snd (Blockchain.validateChain SHA256 w)).
Proof.
  unfold validation. rewrite validateChain_unfold.
  destruct (forEach _ (chain w) 0%nat [] w) as [[log|e] w']; reflexivity.
Qed.

(** The first part of [_addBlock] stages the block and validates. *)
Lemma _addBlock_sync_eq (w : World) (r : Ref) (now : Z) :
  (r < length (objects w))%nat ->
  Schedule._addBlock_sync SHA256 r now w
  = Blockchain.validateChain SHA256 (prepare_at r now w).
Proof.
  intros Hr. unfold Schedule._addBlock_sync. js_unfold.
  pose proof (prepare_steps w r now Hr) as Hw. cbv zeta in Hw.
  now rewrite Hw.
Qed.

Lemma _addBlock_resume_eq (w : World) (r : Ref) (p : Promise (list string)) :
  Schedule._addBlock_resume r p w
  = match p with
    | Fulfilled [] => (Normal (Fulfilled (Some r)), push r w)
    | Fulfilled (_ :: _) => (Normal (Fulfilled None), w)
    | Rejected e => (Normal (Rejected (Error.wrap e)), w)
    end.
Proof. destruct p as [[|e log]|e]; reflexivity. Qed.

(** [_addBlock] is its first part followed at once by its continuation. *)
Lemma _addBlock_split (w : World) (r : Ref) (now : Z) :
  (r < length (objects w))%nat ->
  Blockchain._addBlock SHA256 r now w
  = Schedule._addBlock_resume r (validation (prepare_at r now w))
      (snd (Blockchain.validateChain SHA256 (prepare_at r now w))).
Proof.
  intros Hr. rewrite (_addBlock_eq w r now Hr), _addBlock_resume_eq.
  rewrite (validateChain_validation (prepare_at r now w)). cbn [snd].
  destruct (validation (prepare_at r now w)) as [[|e log]|e]; reflexivity.
Qed.

Lemma call_addBlock_new_eq (s : System) (data : json) (now : Z) :
  Schedule.call_addBlock_new SHA256 encode data now s
  = mkSystem
      (snd (Blockchain.validateChain SHA256 (staged data now (world s))))
      (microtasks s
       ++ [ResumeAddBlock (length (objects (world s)))
             (validation (staged data now (world s)))])%list.
Proof.
  unfold Schedule.call_addBlock_new, Schedule.new_Block, Schedule.call_addBlock.
  cbn [world microtasks].
  rewrite _addBlock_sync_eq by (simpl; rewrite length_app; simpl; lia).
  fold (staged data now (world s)).
  now rewrite (validateChain_validation (staged data now (world s))).
Qed.

(** A call awaited on a settled ledger is the call run to its end. *)
Lemma drain_call_addBlock_new (w : World) (data : json) (now : Z) :
  Schedule.drain (Schedule.call_addBlock_new SHA256 encode data now
                    (mkSystem w []))
  = mkSystem (snd (admit_new data now w)) [].
Proof.
  rewrite call_addBlock_new_eq. unfold Schedule.drain.
  cbn [world microtasks app Schedule.drain_tasks]. f_equal.
  rewrite admit_new_eq, _addBlock_split
    by (simpl; rewrite length_app; simpl; lia).
  reflexivity.
Qed.

Lemma constructor_returns (now : Z) :
  Schedule.constructor SHA256 encode now
  = mkSystem (mkWorld [genesis_block now] [] (-1))
      [ResumeAddBlock 0 (Fulfilled [])].
Proof. reflexivity. Qed.

Lemma constructor_settles (now : Z) :
  Schedule.drain (Schedule.constructor SHA256 encode now)
  = mkSystem (Blockchain.constructor SHA256 encode now) [].
Proof. reflexivity. Qed.

Lemma call_submitStar_eq (s : System) (address message signature : string)
    (star : json) (now now' : Z) :
  Schedule.call_submitStar SHA256 encode verify parseInt
    address message signature star now now' s
  = if in_time_window message now then
      match verify message address signature with
      | Normal true =>
          (Fulfilled (length (objects (world s))),
           Schedule.call_addBlock_new SHA256 encode
             (Blockchain.star_data address star) now' s)
      | Normal false => (Rejected submission_failed, s)
      | Throw _ => (Rejected submission_failed, s)
      end
    else (Rejected submission_failed, s).
Proof.
  unfold Schedule.call_submitStar, in_time_window. change (5 * 60) with 300.
  destruct (num_lt _ _); [|reflexivity].
  destruct (verify message address signature) as [[|]|e]; reflexivity.
Qed.

Lemma drain_call_submitStar (w : World) (address message signature : string)
    (star : json) (now now' : Z) :
  Schedule.drain
    (snd (Schedule.call_submitStar SHA256 encode verify parseInt
            address message signature star now now' (mkSystem w [])))
  = mkSystem
      (snd (Blockchain.submitStar SHA256 encode verify parseInt
              address message signature star now now' w)) []
  /\ Normal (fst (Schedule.call_submitStar SHA256 encode verify parseInt
                    address message signature star now now' (mkSystem w [])))
     = fst (Blockchain.submitStar SHA256 encode verify parseInt
              address message signature star now now' w).
Proof.
  rewrite call_submitStar_eq, submitStar_eq.
  destruct (in_time_window message now); [|split; reflexivity].
  destruct (verify message address signature) as [[|]|e];
    try (split; reflexivity).
  cbn [fst snd]. split; [apply drain_call_addBlock_new | reflexivity].
Qed.

Lemma scheduled_drain (s : System) :
  scheduled s -> scheduled (Schedule.drain s).
Proof.
  destruct s as [w tasks]. revert w.
  induction tasks as [|[r p] tasks IH]; intros w Hs.
  - exact Hs.
  - apply sched_microtask in Hs. apply IH in Hs. exact Hs.
Qed.

(** Sequential use is one of the schedules. *)
Lemma reachable_scheduled (w : World) :
  reachable w -> scheduled (mkSystem w []).
Proof.
  induction 1 as [now | w data now _ IH | w a m sg st now now' _ IH | w _ IH].
  - rewrite <- constructor_settles. apply scheduled_drain, sched_new.
  - rewrite <- drain_call_addBlock_new. now apply scheduled_drain, sched_addBlock.
  - destruct (drain_call_submitStar w a m sg st now now') as [<- _].
    now apply scheduled_drain, sched_submitStar.
  - now apply sched_validateChain in IH.
Qed.

(** ** What every schedule keeps *)

Lemma call_validate_eq (s : System) (r : Ref) :
  Schedule.call_validate SHA256 r s
  = mkSystem (rehash_at r (world s)) (microtasks s).
Proof. reflexivity. Qed.

(** A traversal of [validateChain] leaves each block as it is or rehashes
    it. *)
Lemma forEach_callback_hashed (l : list Ref) :
  forall (i : nat) (log : list string) (w : World)
         (res : Completion (list string)) (w' : World) (r : Ref),
    forEach (Blockchain.validateChain_callback SHA256) l i log w = (res, w') ->
    hashed (obj w r) -> hashed (obj w' r).
Proof.
  induction l as [|x l IH]; intros i log w res w' r H Hr.
  - simpl in H. now injection H as _ <-.
  - cbn [forEach] in H. unfold bind in H.
    destruct (callback_cases w log x i)
      as [(_ & Hcb) | [(_ & _ & Hcb) | (_ & p & _ & Hcb)]];
      rewrite Hcb in H.
    + eapply IH; eauto.
    + now injection H as _ <-.
    + eapply IH; [exact H|]. rewrite obj_rehash_at.
      destruct (decide _) as [[<- _]|_]; [now apply hashed_again | exact Hr].
Qed.

Lemma validateChain_hashed (w : World) (r : Ref) :
  hashed (obj w r) ->
  hashed (obj (snd (Blockchain.validateChain SHA256 w)) r).
Proof.
  rewrite validateChain_unfold.
  destruct (forEach _ (chain w) 0%nat [] w) as [res w'] eqn:H.
  intros Hr. pose proof (forEach_callback_hashed _ _ _ _ _ _ r H Hr).
  destruct res; assumption.
Qed.

Lemma admitted_mono (w : World) (i j : nat) (r : Ref) :
  (i <= j)%nat -> admitted w i r -> admitted w j r.
Proof.
  intros Hij [H1 H2 H3 H4]. split; [assumption | assumption | lia | assumption].
Qed.

Lemma admitted_rehash_at (w : World) (i : nat) (r r' : Ref) :
  admitted w i r -> admitted (rehash_at r' w) i r.
Proof.
  intros [H1 H2 H3 H4]. split.
  - unfold rehash_at. simpl. now rewrite length_insert.
  - rewrite obj_rehash_at.
    destruct (decide _) as [[-> _]|_]; [now apply hashed_again | exact H2].
  - rewrite obj_rehash_at. destruct (decide _) as [[-> _]|_]; exact H3.
  - rewrite obj_rehash_at. destruct (decide _) as [[-> _]|_]; exact H4.
Qed.

Lemma admitted_validateChain (w : World) (i : nat) (r : Ref) :
  admitted w i r -> admitted (snd (Blockchain.validateChain SHA256 w)) i r.
Proof.
  intros [H1 H2 H3 H4].
  pose proof (validateChain_frame w) as [_ _ F3 F4 _].
  split.
  - now rewrite F3.
  - now apply validateChain_hashed.
  - destruct (F4 r) as (-> & _). exact H3.
  - destruct (F4 r) as (_ & _ & _ & ->). exact H4.
Qed.

Lemma admitted_staged (data : json) (now : Z) (w : World) (i : nat) (r : Ref) :
  admitted w i r -> admitted (staged data now w) i r.
Proof.
  intros [H1 H2 H3 H4]. split; rewrite ?staged_length, ?staged_old by exact H1;
    [lia | assumption | assumption | assumption].
Qed.

Lemma admitted_new (data : json) (now : Z) (w : World) :
  admitted (staged data now w) (length (chain w)) (length (objects w)).
Proof.
  split; rewrite ?staged_length, ?staged_new.
  - lia.
  - apply hashed_first. reflexivity.
  - simpl. lia.
  - reflexivity.
Qed.

Lemma admitted_push (w : World) (i : nat) (r r' : Ref) :
  admitted w i r -> admitted (push r' w) i r.
Proof. intros [H1 H2 H3 H4]. split; assumption. Qed.

Lemma inv_objects (now0 : Z) (s : System) :
  scheduled_inv now0 s -> (0 < length (objects (world s)))%nat.
Proof.
  intros [_ [I2|(_ & rest & I2)] _ I4 I5].
  - now destruct (I4 _ _ I2).
  - destruct (I5 (ResumeAddBlock 0 (Fulfilled []))) as [H _ _ _];
      [rewrite I2; now left | exact H].
Qed.

Lemma constructor_inv (now : Z) :
  scheduled_inv now (Schedule.constructor SHA256 encode now).
Proof.
  rewrite constructor_returns. split; cbn [world microtasks chain objects height].
  - apply same_content_refl.
  - right. eauto.
  - reflexivity.
  - intros i r Hi. rewrite lookup_nil in Hi. discriminate.
  - intros t [<-|[]]. split; [simpl; lia | | simpl; lia | reflexivity].
    apply hashed_first. reflexivity.
Qed.

Lemma validateChain_inv (now0 : Z) (w : World) (tasks : list Task) :
  scheduled_inv now0 (mkSystem w tasks) ->
  scheduled_inv now0
    (mkSystem (snd (Blockchain.validateChain SHA256 w)) tasks).
Proof.
  intros [I1 I2 I3 I4 I5]. cbn [world microtasks] in *.
  pose proof (validateChain_frame w) as [F1 F2 _ F4 _].
  split; cbn [world microtasks]; rewrite ?F1, ?F2.
  - eapply same_content_trans; [exact I1 | apply F4].
  - exact I2.
  - exact I3.
  - intros i r Hr. auto using admitted_validateChain.
  - intros t Ht. auto using admitted_validateChain.
Qed.

Lemma validate_inv (now0 : Z) (s : System) (r : Ref) :
  scheduled_inv now0 s ->
  scheduled_inv now0 (Schedule.call_validate SHA256 r s).
Proof.
  intros [I1 I2 I3 I4 I5]. rewrite call_validate_eq.
  split; cbn [world microtasks];
    change (chain (rehash_at r (world s))) with (chain (world s));
    change (height (rehash_at r (world s))) with (height (world s)).
  - eapply same_content_trans; [exact I1|]. rewrite obj_rehash_at.
    destruct (decide _) as [[-> _]|_]; [repeat split | apply same_content_refl].
  - exact I2.
  - exact I3.
  - intros i r' Hr. auto using admitted_rehash_at.
  - intros t Ht. auto using admitted_rehash_at.
Qed.

Lemma staged_inv (now0 : Z) (s : System) (data : json) (now : Z) :
  scheduled_inv now0 s ->
  scheduled_inv now0
    (mkSystem (staged data now (world s))
       (microtasks s
        ++ [ResumeAddBlock (length (objects (world s)))
              (validation (staged data now (world s)))])%list).
Proof.
  intros Hs. pose proof (inv_objects now0 s Hs) as Hpos.
  destruct Hs as [I1 I2 I3 I4 I5].
  split; cbn [world microtasks];
    change (chain (staged data now (world s))) with (chain (world s));
    change (height (staged data now (world s))) with (height (world s)).
  - now rewrite staged_old.
  - destruct I2 as [I2|(I2 & rest & Hq)]; [now left|].
    right. split; [exact I2|]. rewrite Hq. simpl. eauto.
  - exact I3.
  - intros i r Hr. auto using admitted_staged.
  - intros t [Ht|[<-|[]]]%in_app_or; [auto using admitted_staged|].
    apply admitted_new.
Qed.

Lemma call_addBlock_new_inv (now0 : Z) (s : System) (data : json) (now : Z) :
  scheduled_inv now0 s ->
  scheduled_inv now0 (Schedule.call_addBlock_new SHA256 encode data now s).
Proof.
  intros Hs. rewrite call_addBlock_new_eq.
  apply validateChain_inv. now apply staged_inv.
Qed.

Lemma run_microtask_inv (now0 : Z) (s : System) :
  scheduled_inv now0 s -> scheduled_inv now0 (Schedule.run_microtask s).
Proof.
  intros Hs. unfold Schedule.run_microtask.
  destruct s as [w [|[r p] rest]]; [exact Hs|].
  destruct Hs as [I1 I2 I3 I4 I5]. cbn [world microtasks] in *.
  assert (Hrest : forall t : Task, In t rest ->
            admitted w (length (chain w)) (task_block t))
    by (intros t Ht; apply I5; now right).
  pose proof (I5 (ResumeAddBlock r p) (or_introl eq_refl)) as Hr.
  cbn [task_block] in Hr.
  rewrite _addBlock_resume_eq.
  destruct p as [[|e log]|e]; cbn [snd];
    try (split; cbn [world microtasks]; try assumption;
         destruct I2 as [I2|(I2 & rest' & Hq)]; [now left|];
         injection Hq as _ Hq _; discriminate).
  split; cbn [world microtasks push set_height set_chain chain objects height].
  - exact I1.
  - left. destruct I2 as [I2|(I2 & rest' & Hq)].
    + rewrite lookup_app_l; [exact I2|]. now apply lookup_lt_Some in I2.
    + injection Hq as -> _. now rewrite I2.
  - rewrite length_app. simpl. lia.
  - intros i r' Hi. apply lookup_app_Some in Hi as [Hi|[Hlen Hi]].
    + apply (admitted_push w i r' r). auto.
    + apply list_lookup_singleton_Some in Hi as [Hi <-].
      apply (admitted_push w i r r).
      apply (admitted_mono w (length (chain w))); [lia | exact Hr].
  - intros t Ht. apply (admitted_push w _ _ r).
    apply (admitted_mono w (length (chain w))); [rewrite length_app; lia|].
    now apply Hrest.
Qed.

(** The invariant holds in every state of every schedule. *)
Lemma scheduled_has_inv (s : System) :
  scheduled s -> exists now0 : Z, scheduled_inv now0 s.
Proof.
  induction 1 as [now | s now _ IH | s data now _ IH
                 | s a m sg st now now' _ IH | s _ IH | s r _ IH Hr | s _ IH].
  - exists now. apply constructor_inv.
  - destruct IH as [now0 IH]. exists now0.
    unfold Schedule.call_initializeChain.
    destruct (height (world s) =? -1)%Z; [|exact IH].
    now apply call_addBlock_new_inv.
  - destruct IH as [now0 IH]. exists now0. now apply call_addBlock_new_inv.
  - destruct IH as [now0 IH]. exists now0. rewrite call_submitStar_eq.
    destruct (in_time_window m now); [|exact IH].
    destruct (verify m a sg) as [[|]|e]; try exact IH.
    now apply call_addBlock_new_inv.
  - destruct IH as [now0 IH]. exists now0.
    destruct s as [w tasks]. now apply validateChain_inv.
  - destruct IH as [now0 IH]. exists now0. now apply validate_inv.
  - destruct IH as [now0 IH]. exists now0. now apply run_microtask_inv.
Qed.

(** * Properties of every schedule *)

(** ** A failure outside the [try] block *)

(** C5.  When [message] is [undefined], [submitStar] fails at
    [message.split(":")], before its [try] block is entered: the caller gets
    a promise rejected with the [TypeError] itself, which is not the generic
    [submission_failed] error, and the world is left as it was. *)
Theorem C5_failure_before_the_try_block_is_not_wrapped (w : World)
    (address signature : string) (star : json) (now now' : Z) :
  Blockchain.submitStar_call SHA256 encode verify parseInt
    address Undefined signature star now now' w
  = (Normal (Rejected Blockchain.TypeError_split), w)
  /\ Blockchain.TypeError_split <> submission_failed.
Proof. split; [reflexivity | discriminate]. Qed.

(** On a string [submitStar_call] is [submitStar], whose rejections are all
    generic ([submitStar_rejection_is_generic]). *)
Lemma submitStar_call_string (address message signature : string)
    (star : json) (now now' : Z) (w : World) :
  Blockchain.submitStar_call SHA256 encode verify parseInt
    address (Str message) signature star now now' w
  = Blockchain.submitStar SHA256 encode verify parseInt
      address message signature star now now' w.
Proof. reflexivity. Qed.

(** ** The blocks of the chain in any schedule *)

Lemma admitted_stored (w : World) (i : nat) (r : Ref) :
  admitted w i r -> Block.height (obj w r) = Z.of_nat i -> stored w i r.
Proof. intros [H1 H2 _ H4] H3. split; assumption. Qed.

Lemma inv_first (now0 : Z) (s : System) (g : Ref) (rest : list Ref) :
  scheduled_inv now0 s -> chain (world s) = g :: rest ->
  g = 0%nat /\ stored (world s) 0 g.
Proof.
  intros [_ I2 _ I4 _] Hc.
  assert (Hg : chain (world s) !! 0%nat = Some g) by now rewrite Hc.
  split.
  - destruct I2 as [I2|(I2 & _)]; congruence.
  - apply admitted_stored; [now apply I4|].
    destruct (I4 0%nat g Hg) as [_ _ H _]. simpl in H. lia.
Qed.

Lemma hashed_same_hash (b1 b2 : Block.t) :
  collision_free -> hashed b1 -> hashed b2 ->
  Block.hash b1 = Block.hash b2 -> b1 = b2.
Proof.
  intros Hcf [a1 ->]%hashed_is_rehash [a2 ->]%hashed_is_rehash [= H].
  apply Hcf, JSON_stringify_inj in H. now subst a2.
Qed.

(** X11.  With a collision-free digest, in every state of every schedule
    the blocks [getBlockByHash(h)] resolves with are copies of one another:
    blocks of the chain stored under one hash agree in all five
    properties. *)
Theorem getBlockByHash_finds_equal_blocks (s : System) (h : string) :
  collision_free -> scheduled s ->
  exists found : list Ref,
    Blockchain.getBlockByHash h (world s) = (Normal (Fulfilled found), world s)
    /\ forall r1 r2 : Ref,
         In r1 found -> In r2 found -> obj (world s) r1 = obj (world s) r2.
Proof.
  intros Hcf [now0 [_ _ _ I4 _]]%scheduled_has_inv.
  eexists. split; [apply getBlockByHash_eq|].
  intros r1 r2 [H1 [i1 E1]%list_elem_of_lookup]%list_elem_of_In%list_elem_of_filter
               [H2 [i2 E2]%list_elem_of_lookup]%list_elem_of_In%list_elem_of_filter.
  destruct (I4 i1 r1 E1) as [_ K1 _ _], (I4 i2 r2 E2) as [_ K2 _ _].
  apply hashed_same_hash; [assumption .. | congruence].
Qed.

(** X12.  With a collision-free digest, in every state of every schedule
    in which the chain holds two blocks and the second has a positive
    height, one run of [validateChain()] makes the hash under which the
    second block was stored useless: afterwards [getBlockByHash] finds no
    block for it. *)
Theorem validateChain_retires_the_stored_hash (s : System) (g r : Ref)
    (h : string) :
  collision_free -> scheduled s ->
  chain (world s) = [g; r] ->
  0 < Block.height (obj (world s) r) ->
  Block.hash (obj (world s) r) = Some h ->
  let s' := Schedule.call_validateChain SHA256 s in
  Blockchain.getBlockByHash h (world s') = (Normal (Fulfilled []), world s').
Proof.
  intros Hcf Hs Hc Hr Hh. cbv zeta.
  destruct (scheduled_has_inv s Hs) as [now0 Hinv].
  destruct (inv_first now0 s g [r] Hinv Hc) as [_ [_ Hgh _ Hgd]].
  destruct Hinv as [_ _ _ I4 _].
  destruct (I4 1%nat r) as [Hv Hrd _ _]; [now rewrite Hc|].
  assert (Hne : r <> g) by (intros ->; rewrite Hgh in Hr; simpl in Hr; lia).
  unfold Schedule.call_validateChain. cbn [world].
  rewrite (validateChain_two (world s) g r Hc Hgh Hr). cbn [snd].
  rewrite getBlockByHash_eq. do 3 f_equal.
  change (chain (rehash_at r (world s))) with (chain (world s)). rewrite Hc.
  rewrite !filter_cons, filter_nil, !obj_rehash_at.
  destruct (decide (r = g /\ _)) as [[E _]|_]; [contradiction|].
  destruct (decide (r = r /\ _)) as [_|Hn]; [|exfalso; apply Hn; auto].
  destruct (decide (Block.hash (obj (world s) g) = Some h)) as [E|_].
  - exfalso. apply (hashed_distinct (obj (world s) g) (obj (world s) r));
      [assumption .. | rewrite Hgh; simpl; lia | congruence].
  - destruct (decide (Block.hash (rehash (obj (world s) r)) = Some h))
      as [E|_]; [|reflexivity].
    exfalso.
    apply (stale_not_fixed (obj (world s) r) Hcf (hashed_stale _ Hcf Hrd)).
    rewrite Hh. symmetry. exact E.
Qed.

Lemma filter_first_at (w : World) (l : list Ref) (i : nat) (r : Ref) :
  l !! i = Some r ->
  (forall (j : nat) (q : Ref), l !! j = Some q ->
     Block.height (obj w q) <= Z.of_nat j) ->
  Block.height (obj w r) = Z.of_nat i ->
  filter (fun p => Block.height (obj w p) = Z.of_nat i) l !! 0%nat = Some r.
Proof.
  intros Hi Hbound Hr.
  pose proof (filter_head_first w (Z.of_nat i) l) as H.
  destruct (filter _ l !! 0%nat) as [p|].
  - destruct H as (before & after & -> & Hb & Hp).
    destruct (Nat.lt_trichotomy i (length before)) as [Hlt|[Heq|Hgt]].
    + exfalso. rewrite lookup_app_l in Hi by exact Hlt.
      rewrite Forall_forall in Hb. apply (Hb r); [|exact Hr].
      eapply list_elem_of_lookup_2. exact Hi.
    + subst i. rewrite list_lookup_middle in Hi by reflexivity. exact Hi.
    + exfalso.
      assert (Hp' : (before ++ p :: after)%list !! length before = Some p)
        by now apply list_lookup_middle.
      apply Hbound in Hp'. lia.
  - exfalso. rewrite Forall_forall in H. apply (H r); [|exact Hr].
    eapply list_elem_of_lookup_2. exact Hi.
Qed.

(** X13.  In every state of every schedule the height of a block of the
    chain is at most its index, and never negative; when the block at index
    [i] has height [i], [getBlockByHeight(i)] resolves with that very
    block. *)
Theorem getBlockByHeight_finds_the_index (s : System) (i : nat) (r : Ref) :
  scheduled s -> chain (world s) !! i = Some r ->
  0 <= Block.height (obj (world s) r) <= Z.of_nat i
  /\ (Block.height (obj (world s) r) = Z.of_nat i ->
      Blockchain.getBlockByHeight (Z.of_nat i) (world s)
      = (Normal (Fulfilled (Some r)), world s)).
Proof.
  intros [now0 [_ _ _ I4 _]]%scheduled_has_inv Hi.
  split; [now destruct (I4 i r Hi)|].
  intros Hr. rewrite getBlockByHeight_eq. do 3 f_equal.
  apply filter_first_at; [exact Hi | | exact Hr].
  intros j q Hj. now destruct (I4 j q Hj) as [_ _ [_ H] _].
Qed.

(** What [initializeChain()] does when it is called before the admission
    started by the constructor has run: a second genesis block is admitted,
    of height 0 like the first. *)
Lemma initializeChain_before_the_first_push (now0 now1 : Z) :
  let s := Schedule.drain (Schedule.call_initializeChain SHA256 encode now1
                             (Schedule.constructor SHA256 encode now0)) in
  chain (world s) = [0%nat; 1%nat]
  /\ height (world s) = 1
  /\ obj (world s) 0 = genesis_block now0
  /\ obj (world s) 1 = genesis_block now1.
Proof. repeat split. Qed.

(** X14.  In every state of every schedule [height] is the number of blocks
    of the chain less one.  So [initializeChain()] does nothing once the
    chain holds a block, and while the chain is empty, as it still is when
    [new Blockchain()] returns, it admits one more genesis block. *)
Theorem initializeChain_is_a_no_op_once_stored (s : System) (now : Z) :
  scheduled s ->
  height (world s) = Z.of_nat (length (chain (world s))) - 1
  /\ (chain (world s) <> [] ->
      Schedule.call_initializeChain SHA256 encode now s = s)
  /\ (chain (world s) = [] ->
      Schedule.call_initializeChain SHA256 encode now s
      = Schedule.call_addBlock_new SHA256 encode Blockchain.genesis_data now s).
Proof.
  intros [now0 [_ _ I3 _ _]]%scheduled_has_inv.
  split; [exact I3|]. unfold Schedule.call_initializeChain. rewrite I3.
  split.
  - intros Hne.
    destruct (Z.eqb_spec (Z.of_nat (length (chain (world s))) - 1) (-1))
      as [E|_]; [|reflexivity].
    destruct (chain (world s)); [contradiction | simpl in E; lia].
  - intros ->. reflexivity.
Qed.

Lemma stars_length (address : string) (bs : list Block.t) :
  (length (omap (star_of address) bs) <= length bs)%nat.
Proof.
  induction bs as [|b bs IH]; [reflexivity|].
  rewrite stars_cons, length_app.
  destruct (star_of address b); simpl; lia.
Qed.

(** X16.  In every state of every schedule [getStarsByWalletAddress]
    resolves, for any address, with fewer stars than the chain has blocks:
    the genesis block, first in the chain, is never one of them. *)
Theorem getStarsByWalletAddress_skips_the_genesis_block (s : System)
    (address : string) :
  scheduled s ->
  exists stars : list json,
    Blockchain.getStarsByWalletAddress decode address (world s)
    = (Normal (Fulfilled stars), world s)
    /\ (length stars <= length (chain (world s)) - 1)%nat
    /\ (forall g : Ref, chain (world s) !! 0%nat = Some g ->
        star_of address (obj (world s) g) = None).
Proof.
  intros [now0 Hinv]%scheduled_has_inv.
  assert (Hgen : forall g : Ref, chain (world s) !! 0%nat = Some g ->
            star_of address (obj (world s) g) = None).
  { intros g Hg. destruct (chain (world s)) as [|g' rest] eqn:Hc;
      [discriminate|]. injection Hg as ->.
    destruct (inv_first now0 s g rest Hinv Hc) as [_ [_ Hh _ _]].
    unfold star_of. now rewrite Hh. }
  eexists. split; [apply getStars_eq|]. split; [|exact Hgen].
  unfold getStarsByWalletAddress_spec.
  destruct (chain (world s)) as [|g rest]; [simpl; lia|].
  cbn [map]. rewrite stars_cons, (Hgen g eq_refl). simpl.
  pose proof (stars_length address (map (obj (world s)) rest)) as H.
  rewrite length_map in H. lia.
Qed.

(** ** The genesis block *)

Lemma inv_genesis_height (now0 : Z) (s : System) :
  scheduled_inv now0 s -> Block.height (obj (world s) 0) = 0.
Proof. intros [(H & _) _ _ _ _]. rewrite H. reflexivity. Qed.

Lemma call_addBlock_new_genesis (now0 : Z) (s : System) (data : json)
    (now : Z) :
  scheduled_inv now0 s ->
  obj (world (Schedule.call_addBlock_new SHA256 encode data now s)) 0
  = obj (world s) 0.
Proof.
  intros Hinv. rewrite call_addBlock_new_eq. cbn [world].
  pose proof (inv_objects now0 s Hinv) as Hpos.
  pose proof (validateChain_frame (staged data now (world s)))
    as [_ _ _ _ F5].
  rewrite F5, staged_old by (rewrite ?staged_old by exact Hpos;
                             first [exact Hpos | right;
                                    rewrite (inv_genesis_height now0 s Hinv); lia]).
  reflexivity.
Qed.

(** X17.  In every state of every schedule object 0 is the genesis block
    that [new Blockchain()] created, with the height 0, the body, the time
    and the [null] link it was given, and it is the first block of the chain
    as soon as the chain holds a block.  No call of [initializeChain],
    [_addBlock], [submitStar] or [validateChain] and no continuation changes
    any of its properties, its hash included; a [validate()] called on the
    block object itself rewrites its hash. *)
Theorem genesis_block_is_changed_by_validate_only (s : System) :
  scheduled s ->
  exists now0 : Z,
    same_content (genesis_block now0) (obj (world s) 0)
    /\ (chain (world s) = [] \/ chain (world s) !! 0%nat = Some 0%nat)
    /\ (forall now : Z,
          obj (world (Schedule.call_initializeChain SHA256 encode now s)) 0
          = obj (world s) 0)
    /\ (forall (data : json) (now : Z),
          obj (world (Schedule.call_addBlock_new SHA256 encode data now s)) 0
          = obj (world s) 0)
    /\ (forall (address message signature : string) (star : json)
               (now now' : Z),
          obj (world (snd (Schedule.call_submitStar SHA256 encode verify
                             parseInt address message signature star
                             now now' s))) 0
          = obj (world s) 0)
    /\ obj (world (Schedule.call_validateChain SHA256 s)) 0 = obj (world s) 0
    /\ obj (world (Schedule.run_microtask s)) 0 = obj (world s) 0
    /\ (forall block : Ref,
          obj (world (Schedule.call_validate SHA256 block s)) 0
          = if decide (block = 0%nat) then rehash (obj (world s) 0)
            else obj (world s) 0).
Proof.
  intros [now0 Hinv]%scheduled_has_inv. exists now0.
  pose proof (inv_objects now0 s Hinv) as Hpos.
  pose proof (inv_genesis_height now0 s Hinv) as Hh.
  split; [now destruct Hinv|].
  split; [destruct Hinv as [_ [H|[H _]] _ _ _]; auto|].
  split; [|split; [|split; [|split; [|split]]]].
  - intros now. unfold Schedule.call_initializeChain.
    destruct (height (world s) =? -1)%Z; [|reflexivity].
    now apply (call_addBlock_new_genesis now0).
  - intros data now. now apply (call_addBlock_new_genesis now0).
  - intros address message signature star now now'.
    rewrite call_submitStar_eq.
    destruct (in_time_window message now); [|reflexivity].
    destruct (verify message address signature) as [[|]|e]; try reflexivity.
    now apply (call_addBlock_new_genesis now0).
  - unfold Schedule.call_validateChain. cbn [world].
    pose proof (validateChain_frame (world s)) as [_ _ _ _ F5].
    apply F5. right. lia.
  - unfold Schedule.run_microtask.
    destruct (microtasks s) as [|[r p] rest]; [reflexivity|].
    rewrite _addBlock_resume_eq. now destruct p as [[|e log]|e].
  - intros block. rewrite call_validate_eq. cbn [world].
    rewrite obj_rehash_at.
    destruct (decide (block = 0%nat)) as [->|Hne].
    + destruct (decide _) as [_|Hn]; [reflexivity|].
      exfalso. apply Hn. auto.
    + destruct (decide _) as [[E _]|_]; [contradiction | reflexivity].
Qed.

(** ** Submitting stars *)

(** X18.  The first star.  In every state of every schedule in which the
    chain holds one block and no admission is pending, a submission inside
    the time window with a signature that verifies is stored: [submitStar]
    resolves with the new block, and when the admission it started has run
    the block is the second of the chain, the chain height is 1 and
    [getBlockByHeight(1)] finds the block.  If the codec reads back the
    payload it wrote, [getBData()] of the block and
    [getStarsByWalletAddress(address)] give the submitted
    [{owner, star}]. *)
Theorem first_star_is_stored_and_found (s : System)
    (address message signature : string) (star : json) (now now' : Z) :
  scheduled s -> microtasks s = [] ->
  length (chain (world s)) = 1%nat ->
  in_time_window message now = true ->
  verify message address signature = Normal true ->
  exists block : Ref,
    let call := Schedule.call_submitStar SHA256 encode verify parseInt
                  address message signature star now now' s in
    let w' := world (Schedule.drain (snd call)) in
    fst call = Fulfilled block
    /\ chain w' = (chain (world s) ++ [block])%list
    /\ fst (Blockchain.getChainHeight w') = Normal (Fulfilled 1)
    /\ fst (Blockchain.getBlockByHeight 1 w') = Normal (Fulfilled (Some block))
    /\ (decode (encode (Blockchain.star_data address star))
        = Normal (Blockchain.star_data address star) ->
        Block.getBData decode (obj w' block)
        = Fulfilled (Blockchain.star_data address star)
        /\ fst (Blockchain.getStarsByWalletAddress decode address w')
           = Normal (Fulfilled [Blockchain.star_data address star])).
Proof.
  intros Hs Hq Hlen Ht Hv.
  destruct (scheduled_has_inv s Hs) as [now0 Hinv].
  destruct s as [w tasks]. cbn [world microtasks] in *. subst tasks.
  destruct (chain w) as [|g [|g' rest]] eqn:Hc; try discriminate.
  destruct (inv_first now0 _ g [] Hinv Hc) as [_ Hg].
  assert (Hh : height w = 0)
    by (destruct Hinv as [_ _ H _ _]; cbn [world] in H; rewrite Hc in H;
        exact H).
  set (data := Blockchain.star_data address star).
  destruct (admit_new_genesis w g data now' Hc Hh Hg)
    as (w' & Hrun & Hc' & Hh' & Hg' & Hr' & Hne).
  destruct (admit_new_frame w data now') as (_ & _ & (_ & Hbody & _)).
  rewrite Hrun in Hbody. cbn [snd] in Hbody.
  change (Block.body (prepared (length (chain w)) now'
                        (Block.constructor encode data)))
    with (encode data) in Hbody.
  destruct Hg' as [_ Hgh _ _], Hr' as [_ Hrh _ _].
  exists (length (objects w)). cbv zeta.
  destruct (drain_call_submitStar w address message signature star now now')
    as [-> _].
  cbn [world]. rewrite call_submitStar_eq, submitStar_eq, Ht, Hv.
  fold data. rewrite Hrun. cbn [fst snd world]. subst data.
  split; [reflexivity|]. split; [exact Hc'|].
  split; [unfold Blockchain.getChainHeight; js_unfold; now rewrite Hh'|].
  split.
  - rewrite getBlockByHeight_eq. cbn [fst]. do 2 f_equal.
    rewrite Hc', !filter_cons, filter_nil.
    destruct (decide (Block.height (obj w' g) = 1)) as [E|_];
      [rewrite Hgh in E; discriminate|].
    destruct (decide (Block.height (obj w' (length (objects w))) = 1));
      [reflexivity | contradiction].
  - intros Hcodec. split.
    + unfold Block.getBData. rewrite Hbody, Hcodec, Hrh. reflexivity.
    + rewrite getStars_eq. cbn [fst]. do 2 f_equal.
      unfold getStarsByWalletAddress_spec. rewrite Hc'. cbn [map].
      rewrite !stars_cons.
      replace (star_of address (obj w' g)) with (@None json)
        by (unfold star_of; now rewrite Hgh).
      rewrite (star_of_star_data address star)
        by first [rewrite Hrh; discriminate | rewrite Hbody; exact Hcodec].
      reflexivity.
Qed.

(** X19.  The star that is dropped.  In every state of every schedule in
    which the chain holds two blocks, the second of positive height, and no
    admission is pending, a submission inside the time window with a
    signature that verifies still resolves with a new block of height 2, but
    when the admission it started has run that block is not in the chain:
    the chain and the counter are unchanged, [getBlockByHeight(2)] resolves
    with [null], and [getStarsByWalletAddress] resolves, for every address,
    with what it did before. *)
Theorem later_star_is_resolved_but_not_stored (s : System) (g r : Ref)
    (address message signature : string) (star : json) (now now' : Z) :
  scheduled s -> microtasks s = [] ->
  chain (world s) = [g; r] ->
  0 < Block.height (obj (world s) r) ->
  in_time_window message now = true ->
  verify message address signature = Normal true ->
  exists block : Ref,
    let call := Schedule.call_submitStar SHA256 encode verify parseInt
                  address message signature star now now' s in
    let w' := world (Schedule.drain (snd call)) in
    fst call = Fulfilled block
    /\ Block.height (obj w' block) = 2
    /\ ~ In block (chain w')
    /\ chain w' = chain (world s)
    /\ height w' = height (world s)
    /\ fst (Blockchain.getBlockByHeight 2 w') = Normal (Fulfilled None)
    /\ forall owner : string,
         fst (Blockchain.getStarsByWalletAddress decode owner w')
         = fst (Blockchain.getStarsByWalletAddress decode owner (world s)).
Proof.
  intros Hs Hq Hc Hpos Ht Hv.
  destruct (scheduled_has_inv s Hs) as [now0 Hinv].
  destruct s as [w tasks]. cbn [world microtasks] in *. subst tasks.
  destruct (inv_first now0 _ g [r] Hinv Hc) as [_ Hg].
  destruct Hinv as [_ _ Hh I4 _]. cbn [world] in Hh, I4, Hg.
  rewrite Hc in Hh. simpl in Hh.
  assert (Hr : stored w 1 r).
  { assert (Ha : admitted w 1 r) by (apply I4; now rewrite Hc).
    apply admitted_stored; [exact Ha|].
    destruct Ha as [_ _ H _]. simpl in H. simpl. lia. }
  assert (Hne : g <> r).
  { intros ->. destruct Hg as [_ H _ _]. rewrite H in Hpos. simpl in Hpos. lia. }
  set (data := Blockchain.star_data address star).
  destruct (admit_new_full w g r data now' Hc Hh Hne Hg Hr)
    as (w' & Hrun & Hc' & Hh' & Hg' & Hr').
  destruct (admit_new_frame w data now') as (_ & (_ & Hk) & (Hheight & _)).
  rewrite Hrun in Hk, Hheight. cbn [snd] in Hk, Hheight.
  rewrite Hc in Hheight.
  change (Block.height (prepared (length [g; r]) now'
                          (Block.constructor encode data)))
    with 2 in Hheight.
  exists (length (objects w)). cbv zeta.
  destruct (drain_call_submitStar w address message signature star now now')
    as [-> _].
  cbn [world]. rewrite call_submitStar_eq, submitStar_eq, Ht, Hv.
  fold data. rewrite Hrun. cbn [fst snd world].
  split; [reflexivity|]. split; [exact Hheight|].
  destruct Hg as [Hgv _ _ _], Hr as [Hrv _ _ _].
  split; [|split; [exact Hc'|split; [exact Hh'|split]]].
  - rewrite Hc', Hc. simpl. lia.
  - rewrite getBlockByHeight_eq. cbn [fst]. do 2 f_equal.
    rewrite Hc', Hc, !filter_cons, filter_nil.
    destruct Hg' as [_ Hgh _ _], Hr' as [_ Hrh _ _].
    destruct (decide (Block.height (obj w' g) = 2)) as [E|_];
      [rewrite Hgh in E; discriminate|].
    destruct (decide (Block.height (obj w' r) = 2)) as [E|_];
      [rewrite Hrh in E; discriminate|].
    reflexivity.
  - intros owner. rewrite !getStars_eq. cbn [fst]. do 2 f_equal.
    unfold getStarsByWalletAddress_spec. rewrite Hc'.
    apply stars_same_content. intros q Hq. apply Hk.
    rewrite Hc in Hq. simpl in Hq. destruct Hq as [<-|[<-|[]]]; assumption.
Qed.

End Ledger.

(** * The properties on the sample chains *)

Lemma sample_SHA256_collision_free : collision_free sample_SHA256.
Proof. intros x y H. injection H as H. exact H. Qed.

Lemma sample_two_blocks_reachable :
  reachable sample_SHA256 sample_encode sample_verify sample_parseInt
    sample_two_blocks.
Proof. unfold sample_two_blocks, sample_fresh. apply reach_submitStar, reach_new. Qed.

Example sample_two_blocks_chain :
  chain sample_two_blocks = [0%nat; 1%nat] /\ height sample_two_blocks = 1.
Proof. split; reflexivity. Qed.

(** A reachable chain of two blocks, and all that C9 says of it. *)
Lemma C9_witness :
  reachable sample_SHA256 sample_encode sample_verify sample_parseInt
    sample_two_blocks
  /\ length (chain sample_two_blocks) = 2%nat
  /\ forall data now,
       chain (snd (admit_new sample_SHA256 sample_encode data now
                     sample_two_blocks))
       = chain sample_two_blocks.
Proof.
  split; [exact sample_two_blocks_reachable|].
  split; [reflexivity|].
  intros data now.
  apply (C9_chain_holds_at_most_two_blocks sample_SHA256 sample_encode
           sample_verify sample_parseInt sample_two_blocks
           sample_two_blocks_reachable).
  reflexivity.
Defined.


(** Overwriting the body of block 1 is not reported as tampering. *)
Lemma C3_witness :
  collision_free sample_SHA256
  /\ fst (Blockchain.validateChain sample_SHA256
            (tamper_body 1 "00"
               (snd (admit_new sample_SHA256 sample_encode
                       (Blockchain.star_data "alice" (JStr "Vega")) 2000
                       (Blockchain.constructor sample_SHA256 sample_encode 1000)))))
     = Normal (Fulfilled
         ["Block 1 Hash Mismatch :: PreviousBlockHash null, Required PreviousBlockHash sha256:{" +:+
          JSON_key "hash" +:+ "null," +:+ JSON_key "height" +:+ "0," +:+
          JSON_key "body" +:+ JSON_quote "d/Genesis Block" +:+ "," +:+
          JSON_key "time" +:+ "1000," +:+
          JSON_key "previousBlockHash" +:+ "null}"]).
Proof.
  split; [exact sample_SHA256_collision_free|].
  destruct (C3_tamper_error_is_never_logged sample_SHA256 sample_encode
              1000 2000 (Blockchain.star_data "alice" (JStr "Vega")) "00"
              sample_SHA256_collision_free)
    as (_ & Hlog & _).
  rewrite Hlog. reflexivity.
Defined.

(** A message 301 seconds old is rejected, with a valid signature. *)
Lemma C4_witness :
  sample_parseInt (Blockchain.message_time_field sample_message)
  = Some 1700000000
  /\ sample_parseInt (Blockchain.seconds_text 1700000301000) = Some 1700000301
  /\ 300 <= 1700000301 - 1700000000
  /\ Blockchain.submitStar sample_SHA256 sample_encode sample_verify
       sample_parseInt "alice" sample_message ("signed:" +:+ sample_message)
       (JStr "Vega") 1700000301000 1700000301001 sample_fresh
     = (Normal (Rejected submission_failed), sample_fresh).
Proof.
  split; [reflexivity|]. split; [reflexivity|]. split; [lia|].
  apply (C4_submitStar_rejects_outside_window sample_SHA256 sample_encode
           sample_verify sample_parseInt sample_fresh "alice" sample_message
           ("signed:" +:+ sample_message) (JStr "Vega")
           1700000301000 1700000301001 1700000000 1700000301).
  - reflexivity.
  - reflexivity.
  - lia.
Defined.

(** A forged signature inside the time window: the caller sees the generic
    error. *)
Lemma submitStar_failure_in_try_is_generic_witness :
  failure sample_verify sample_parseInt "alice" sample_message "forged"
    1700000100123 (Error.new "Message could not be verified.")
  /\ Blockchain.submitStar sample_SHA256 sample_encode sample_verify
       sample_parseInt "alice" sample_message "forged" (JStr "Vega")
       1700000100123 1700000100124 sample_fresh
     = (Normal (Rejected submission_failed), sample_fresh).
Proof.
  assert (Hf : failure sample_verify sample_parseInt "alice" sample_message
                 "forged" 1700000100123
                 (Error.new "Message could not be verified."))
    by (apply failure_signature; reflexivity).
  split; [exact Hf|].
  apply (submitStar_failure_in_try_is_generic sample_SHA256 sample_encode
           sample_verify sample_parseInt sample_fresh "alice" sample_message
           "forged" (JStr "Vega") 1700000100123 1700000100124 _ Hf).
Defined.

(** The genesis block of the sample chain decodes to the marker, not to its
    payload. *)
Lemma C8_witness :
  Block.height (obj sample_fresh 0) = 0
  /\ sample_decode (Block.body (obj sample_fresh 0))
     = Normal Blockchain.genesis_data
  /\ Block.getBData sample_decode (obj sample_fresh 0)
     = Fulfilled (JStr "** Genesis Block **").
Proof.
  split; [reflexivity|]. split; [reflexivity|].
  apply (C8_getBData_genesis_marker sample_decode (obj sample_fresh 0)
           Blockchain.genesis_data); reflexivity.
Defined.

(** ** The further properties on the sample chains *)

Lemma sample_fresh_reachable :
  reachable sample_SHA256 sample_encode sample_verify sample_parseInt
    sample_fresh.
Proof. apply reach_new. Qed.

Lemma requestMessage_time_round_trip_witness :
  string_forall (is_not ":") "alice" = true
  /\ exists message : string,
       Blockchain.requestMessageOwnershipVerification "alice" 1700000000123
         sample_fresh
       = (Normal (Fulfilled message), sample_fresh)
       /\ Blockchain.message_time_field message = "1700000000".
Proof.
  split; [reflexivity|].
  destruct (requestMessage_time_round_trip sample_parseInt sample_fresh
              "alice" 1700000000123 eq_refl)
    as (message & Hm & _ & Hf & _).
  exists message. split; [exact Hm | exact Hf].
Defined.

Lemma validateChain_logs_linkage_errors_only_witness :
  Blockchain.validateChain sample_SHA256 sample_two_blocks
  = (Normal (Fulfilled
       (match fst (Blockchain.validateChain sample_SHA256 sample_two_blocks) with
        | Normal (Fulfilled log) => log
        | _ => []
        end)),
     snd (Blockchain.validateChain sample_SHA256 sample_two_blocks))
  /\ forall (index : nat) (b : Block.t),
       ~ In (Blockchain.blockInvalidError index b)
            (match fst (Blockchain.validateChain sample_SHA256 sample_two_blocks) with
             | Normal (Fulfilled log) => log
             | _ => []
             end).
Proof.
  split; [reflexivity|].
  apply (validateChain_logs_linkage_errors_only sample_SHA256
           sample_two_blocks _ _ eq_refl).
Defined.

Lemma submitStar_resolves_with_new_block_witness :
  Blockchain.submitStar sample_SHA256 sample_encode sample_verify
    sample_parseInt "bob" "bob:1700000000:starRegistry"
    "signed:bob:1700000000:starRegistry" (JStr "Deneb")
    1700000100123 1700000100124 sample_two_blocks
  = (Normal (Fulfilled 2%nat),
     snd (Blockchain.submitStar sample_SHA256 sample_encode sample_verify
            sample_parseInt "bob" "bob:1700000000:starRegistry"
            "signed:bob:1700000000:starRegistry" (JStr "Deneb")
            1700000100123 1700000100124 sample_two_blocks))
  /\ 2%nat = length (objects sample_two_blocks).
Proof.
  split; [reflexivity|].
  apply (submitStar_resolves_with_new_block sample_SHA256 sample_encode
           sample_verify sample_parseInt sample_two_blocks _
           "bob" "bob:1700000000:starRegistry"
           "signed:bob:1700000000:starRegistry" (JStr "Deneb")
           1700000100123 1700000100124 2%nat eq_refl).
Defined.

Lemma validate_answers_the_same_again_witness :
  collision_free sample_SHA256
  /\ fst (Block.validate sample_SHA256
            (snd (Block.validate sample_SHA256 (obj sample_two_blocks 1))))
     = fst (Block.validate sample_SHA256 (obj sample_two_blocks 1)).
Proof.
  split; [exact sample_SHA256_collision_free|].
  apply (validate_answers_the_same_again sample_SHA256
           (obj sample_two_blocks 1) sample_SHA256_collision_free).
Defined.

Lemma equal_hashes_come_from_equal_blocks_witness :
  collision_free sample_SHA256
  /\ Block.hash (rehash sample_SHA256 (obj sample_two_blocks 1))
     = Block.hash (rehash sample_SHA256 (obj sample_two_blocks 1))
  /\ obj sample_two_blocks 1 = obj sample_two_blocks 1.
Proof.
  split; [exact sample_SHA256_collision_free|]. split; [reflexivity|].
  apply (equal_hashes_come_from_equal_blocks sample_SHA256 _ _
           sample_SHA256_collision_free eq_refl).
Defined.

Lemma getBData_of_a_constructed_block_witness :
  sample_decode (sample_encode sample_star) = Normal sample_star
  /\ 1 <> 0
  /\ Block.getBData sample_decode (Block.constructor sample_encode sample_star)
     = Fulfilled (JStr "** Genesis Block **")
  /\ Block.getBData sample_decode
       (Block.set_height 1 (Block.constructor sample_encode sample_star))
     = Fulfilled sample_star.
Proof.
  split; [reflexivity|]. split; [discriminate|].
  apply (getBData_of_a_constructed_block sample_encode sample_decode
           sample_star 1 eq_refl).
  discriminate.
Defined.

Lemma validateChain_accepts_a_linked_pair_witness :
  chain sample_two_blocks = [0%nat; 1%nat]
  /\ Block.height (obj sample_two_blocks 0) = 0
  /\ 0 < Block.height (obj sample_two_blocks 1)
  /\ (fst (Blockchain.validateChain sample_SHA256 sample_two_blocks)
      = Normal (Fulfilled [])
      <-> Block.previousBlockHash (obj sample_two_blocks 1)
          = Block.hash (obj sample_two_blocks 0)).
Proof.
  split; [reflexivity|]. split; [reflexivity|]. split; [reflexivity|].
  apply (validateChain_accepts_a_linked_pair sample_SHA256 sample_two_blocks
           0%nat 1%nat); reflexivity.
Defined.

Lemma submitStar_acceptance_ignores_the_chain_witness :
  (exists (block : Ref) (w' : World),
     Blockchain.submitStar sample_SHA256 sample_encode sample_verify
       sample_parseInt "alice" sample_message ("signed:" +:+ sample_message)
       (JStr "Vega") 1700000100123 1700000100124 sample_fresh
     = (Normal (Fulfilled block), w'))
  /\ exists (block : Ref) (w' : World),
       Blockchain.submitStar sample_SHA256 sample_encode sample_verify
         sample_parseInt "alice" sample_message ("signed:" +:+ sample_message)
         (JStr "Vega") 1700000100123 1700000100125 sample_two_blocks
       = (Normal (Fulfilled block), w').
Proof.
  assert (H : exists (block : Ref) (w' : World),
            Blockchain.submitStar sample_SHA256 sample_encode sample_verify
              sample_parseInt "alice" sample_message
              ("signed:" +:+ sample_message)
              (JStr "Vega") 1700000100123 1700000100124 sample_fresh
            = (Normal (Fulfilled block), w'))
    by (eexists _, _; reflexivity).
  split; [exact H|].
  apply (submitStar_acceptance_ignores_the_chain sample_SHA256 sample_encode
           sample_verify sample_parseInt sample_fresh sample_two_blocks
           "alice" sample_message ("signed:" +:+ sample_message)
           (JStr "Vega") (JStr "Vega") 1700000100123 1700000100124
           1700000100125 H).
Defined.

(** * The schedules of the sample ledgers *)

Lemma sample_unsettled_scheduled :
  scheduled sample_SHA256 sample_encode sample_verify sample_parseInt
    sample_unsettled.
Proof. apply sched_new. Qed.

Lemma sample_settled_scheduled :
  scheduled sample_SHA256 sample_encode sample_verify sample_parseInt
    sample_settled.
Proof. apply scheduled_drain, sample_unsettled_scheduled. Qed.

Lemma sample_submit_scheduled (star : string) (now : Z) (s : System) :
  scheduled sample_SHA256 sample_encode sample_verify sample_parseInt s ->
  scheduled sample_SHA256 sample_encode sample_verify sample_parseInt
    (sample_submit star now s).
Proof. intros Hs. now apply sched_submitStar. Qed.

Lemma sample_early_star_scheduled :
  scheduled sample_SHA256 sample_encode sample_verify sample_parseInt
    sample_early_star.
Proof.
  apply scheduled_drain, sample_submit_scheduled, sample_unsettled_scheduled.
Qed.

Lemma sample_not_awaited_scheduled :
  scheduled sample_SHA256 sample_encode sample_verify sample_parseInt
    sample_not_awaited.
Proof.
  apply scheduled_drain, sample_submit_scheduled, sample_early_star_scheduled.
Qed.

Lemma sample_overlapping_scheduled :
  scheduled sample_SHA256 sample_encode sample_verify sample_parseInt
    sample_overlapping.
Proof.
  apply scheduled_drain, sample_submit_scheduled, sample_submit_scheduled,
    sample_settled_scheduled.
Qed.

Lemma sample_one_star_scheduled :
  scheduled sample_SHA256 sample_encode sample_verify sample_parseInt
    sample_one_star.
Proof.
  apply scheduled_drain, sample_submit_scheduled, sample_settled_scheduled.
Qed.

Lemma sample_two_genesis_scheduled :
  scheduled sample_SHA256 sample_encode sample_verify sample_parseInt
    sample_two_genesis.
Proof.
  apply scheduled_drain, sched_initializeChain, sample_unsettled_scheduled.
Qed.

(** The awaited calls of the sample ledgers are the calls of sequential
    use. *)
Example sample_one_star_world :
  sample_settled = mkSystem sample_fresh []
  /\ sample_one_star = mkSystem sample_two_blocks [].
Proof. split; reflexivity. Qed.

(** When the constructor is not awaited, or two submissions overlap, the
    chain grows beyond two blocks: the state is one the code reaches, and it
    refutes the bound for every reachable state. *)
Lemma C9_counterexample :
  scheduled sample_SHA256 sample_encode sample_verify sample_parseInt
    sample_not_awaited
  /\ heights sample_early_star = [0; 0]
  /\ heights sample_not_awaited = [0; 0; 2]
  /\ scheduled sample_SHA256 sample_encode sample_verify sample_parseInt
       sample_overlapping
  /\ heights sample_overlapping = [0; 1; 1]
  /\ ~ (forall s : System,
          scheduled sample_SHA256 sample_encode sample_verify sample_parseInt
            s ->
          (length (chain (world s)) <= 2)%nat).
Proof.
  split; [exact sample_not_awaited_scheduled|].
  split; [reflexivity|]. split; [reflexivity|].
  split; [exact sample_overlapping_scheduled|].
  split; [reflexivity|].
  intros H. specialize (H sample_not_awaited sample_not_awaited_scheduled).
  vm_compute in H. lia.
Qed.

(** Two genesis blocks stored under one hash. *)
Lemma getBlockByHash_finds_equal_blocks_witness :
  collision_free sample_SHA256
  /\ scheduled sample_SHA256 sample_encode sample_verify sample_parseInt
       sample_two_genesis
  /\ fst (Blockchain.getBlockByHash sample_genesis_hash
            (world sample_two_genesis))
     = Normal (Fulfilled [0%nat; 1%nat])
  /\ exists found : list Ref,
       Blockchain.getBlockByHash sample_genesis_hash (world sample_two_genesis)
       = (Normal (Fulfilled found), world sample_two_genesis)
       /\ forall r1 r2 : Ref,
            In r1 found -> In r2 found ->
            obj (world sample_two_genesis) r1
            = obj (world sample_two_genesis) r2.
Proof.
  split; [exact sample_SHA256_collision_free|].
  split; [exact sample_two_genesis_scheduled|].
  split; [reflexivity|].
  apply (getBlockByHash_finds_equal_blocks sample_SHA256 sample_encode
           sample_verify sample_parseInt sample_two_genesis
           sample_genesis_hash sample_SHA256_collision_free
           sample_two_genesis_scheduled).
Defined.

(** After one run of [validateChain()] the star of the sample ledger is no
    longer found under its hash. *)
Lemma validateChain_retires_the_stored_hash_witness :
  collision_free sample_SHA256
  /\ scheduled sample_SHA256 sample_encode sample_verify sample_parseInt
       sample_one_star
  /\ chain (world sample_one_star) = [0%nat; 1%nat]
  /\ 0 < Block.height (obj (world sample_one_star) 1)
  /\ Block.hash (obj (world sample_one_star) 1) = Some sample_hash
  /\ fst (Blockchain.getBlockByHash sample_hash (world sample_one_star))
     = Normal (Fulfilled [1%nat])
  /\ let s' := Schedule.call_validateChain sample_SHA256 sample_one_star in
     Blockchain.getBlockByHash sample_hash (world s')
     = (Normal (Fulfilled []), world s').
Proof.
  split; [exact sample_SHA256_collision_free|].
  split; [exact sample_one_star_scheduled|].
  split; [reflexivity|]. split; [reflexivity|]. split; [reflexivity|].
  split; [reflexivity|].
  apply (validateChain_retires_the_stored_hash sample_SHA256 sample_encode
           sample_verify sample_parseInt sample_one_star 0%nat 1%nat
           sample_hash sample_SHA256_collision_free
           sample_one_star_scheduled eq_refl eq_refl eq_refl).
Defined.

(** With overlapping submissions the block at index 2 has height 1;
    [getBlockByHeight(1)] finds the block at index 1. *)
Lemma getBlockByHeight_finds_the_index_witness :
  scheduled sample_SHA256 sample_encode sample_verify sample_parseInt
    sample_overlapping
  /\ chain (world sample_overlapping) !! 1%nat = Some 1%nat
  /\ chain (world sample_overlapping) !! 2%nat = Some 2%nat
  /\ Block.height (obj (world sample_overlapping) 2) = 1
  /\ Block.height (obj (world sample_overlapping) 1) = Z.of_nat 1
  /\ Blockchain.getBlockByHeight (Z.of_nat 1) (world sample_overlapping)
     = (Normal (Fulfilled (Some 1%nat)), world sample_overlapping).
Proof.
  split; [exact sample_overlapping_scheduled|].
  split; [reflexivity|]. split; [reflexivity|]. split; [reflexivity|].
  split; [reflexivity|].
  apply (getBlockByHeight_finds_the_index sample_SHA256 sample_encode
           sample_verify sample_parseInt sample_overlapping 1%nat 1%nat
           sample_overlapping_scheduled eq_refl).
  reflexivity.
Defined.

(** [initializeChain()] changes nothing on the settled sample ledger; called
    when the constructor has just returned, it admits a second genesis
    block. *)
Lemma initializeChain_is_a_no_op_once_stored_witness :
  scheduled sample_SHA256 sample_encode sample_verify sample_parseInt
    sample_settled
  /\ chain (world sample_settled) <> []
  /\ Schedule.call_initializeChain sample_SHA256 sample_encode 1700000000000
       sample_settled
     = sample_settled
  /\ scheduled sample_SHA256 sample_encode sample_verify sample_parseInt
       sample_unsettled
  /\ chain (world sample_unsettled) = []
  /\ Schedule.call_initializeChain sample_SHA256 sample_encode 1699999999000
       sample_unsettled
     = Schedule.call_addBlock_new sample_SHA256 sample_encode
         Blockchain.genesis_data 1699999999000 sample_unsettled
  /\ heights sample_two_genesis = [0; 0].
Proof.
  assert (Hne : chain (world sample_settled) <> []) by discriminate.
  split; [exact sample_settled_scheduled|]. split; [exact Hne|].
  split.
  { apply (initializeChain_is_a_no_op_once_stored sample_SHA256 sample_encode
             sample_verify sample_parseInt sample_settled 1700000000000
             sample_settled_scheduled).
    exact Hne. }
  split; [exact sample_unsettled_scheduled|]. split; [reflexivity|].
  split; [|reflexivity].
  apply (initializeChain_is_a_no_op_once_stored sample_SHA256 sample_encode
           sample_verify sample_parseInt sample_unsettled 1699999999000
           sample_unsettled_scheduled).
  reflexivity.
Defined.

(** Alice's two stars, in a chain of three blocks. *)
Lemma getStarsByWalletAddress_skips_the_genesis_block_witness :
  scheduled sample_SHA256 sample_encode sample_verify sample_parseInt
    sample_overlapping
  /\ fst (Blockchain.getStarsByWalletAddress sample_decode "alice"
            (world sample_overlapping))
     = Normal (Fulfilled [Blockchain.star_data "alice" (JStr "Vega");
                          Blockchain.star_data "alice" (JStr "Deneb")])
  /\ exists stars : list json,
       Blockchain.getStarsByWalletAddress sample_decode "alice"
         (world sample_overlapping)
       = (Normal (Fulfilled stars), world sample_overlapping)
       /\ (length stars <= length (chain (world sample_overlapping)) - 1)%nat
       /\ (forall g : Ref,
             chain (world sample_overlapping) !! 0%nat = Some g ->
             star_of sample_decode "alice" (obj (world sample_overlapping) g)
             = None).
Proof.
  split; [exact sample_overlapping_scheduled|]. split; [reflexivity|].
  apply (getStarsByWalletAddress_skips_the_genesis_block sample_SHA256
           sample_encode sample_decode sample_verify sample_parseInt
           sample_overlapping "alice" sample_overlapping_scheduled).
Defined.

(** The genesis block of a ledger whose constructor was not awaited. *)
Lemma genesis_block_is_changed_by_validate_only_witness :
  scheduled sample_SHA256 sample_encode sample_verify sample_parseInt
    sample_not_awaited
  /\ exists now0 : Z,
       same_content (genesis_block sample_SHA256 sample_encode now0)
         (obj (world sample_not_awaited) 0)
       /\ obj (world (Schedule.call_validateChain sample_SHA256
                        sample_not_awaited)) 0
          = obj (world sample_not_awaited) 0
       /\ obj (world (Schedule.call_validate sample_SHA256 0
                        sample_not_awaited)) 0
          = rehash sample_SHA256 (obj (world sample_not_awaited) 0).
Proof.
  split; [exact sample_not_awaited_scheduled|].
  destruct (genesis_block_is_changed_by_validate_only sample_SHA256
              sample_encode sample_verify sample_parseInt sample_not_awaited
              sample_not_awaited_scheduled)
    as (now0 & Hcontent & _ & _ & _ & _ & Hchain & _ & Hvalidate).
  exists now0. split; [exact Hcontent|]. split; [exact Hchain|].
  exact (Hvalidate 0%nat).
Defined.

(** Alice's star, submitted to the settled sample ledger 100 seconds after
    the message was issued, is stored and found. *)
Lemma first_star_is_stored_and_found_witness :
  scheduled sample_SHA256 sample_encode sample_verify sample_parseInt
    sample_settled
  /\ microtasks sample_settled = []
  /\ length (chain (world sample_settled)) = 1%nat
  /\ in_time_window sample_parseInt sample_message 1700000100123 = true
  /\ sample_verify sample_message "alice" ("signed:" +:+ sample_message)
     = Normal true
  /\ sample_decode (sample_encode sample_star) = Normal sample_star
  /\ exists block : Ref,
       chain (world sample_one_star)
       = (chain (world sample_settled) ++ [block])%list
       /\ fst (Blockchain.getBlockByHeight 1 (world sample_one_star))
          = Normal (Fulfilled (Some block))
       /\ Block.getBData sample_decode (obj (world sample_one_star) block)
          = Fulfilled sample_star
       /\ fst (Blockchain.getStarsByWalletAddress sample_decode "alice"
                 (world sample_one_star))
          = Normal (Fulfilled [sample_star]).
Proof.
  split; [exact sample_settled_scheduled|]. split; [reflexivity|].
  split; [reflexivity|]. split; [reflexivity|]. split; [reflexivity|].
  split; [reflexivity|].
  destruct (first_star_is_stored_and_found sample_SHA256 sample_encode
              sample_decode sample_verify sample_parseInt sample_settled
              "alice" sample_message ("signed:" +:+ sample_message)
              (JStr "Vega") 1700000100123 (1700000100123 + 1)
              sample_settled_scheduled eq_refl eq_refl eq_refl eq_refl)
    as (block & _ & Hchain & _ & Hfound & Hdecoded).
  destruct (Hdecoded eq_refl) as [Hdata Hstars].
  exists block. split; [exact Hchain|]. split; [exact Hfound|].
  split; [exact Hdata | exact Hstars].
Defined.

(** Bob's star, submitted to the sample ledger that holds Alice's, is
    resolved and dropped. *)
Lemma later_star_is_resolved_but_not_stored_witness :
  scheduled sample_SHA256 sample_encode sample_verify sample_parseInt
    sample_one_star
  /\ microtasks sample_one_star = []
  /\ chain (world sample_one_star) = [0%nat; 1%nat]
  /\ 0 < Block.height (obj (world sample_one_star) 1)
  /\ in_time_window sample_parseInt "bob:1700000000:starRegistry"
       1700000100123 = true
  /\ sample_verify "bob:1700000000:starRegistry" "bob"
       "signed:bob:1700000000:starRegistry" = Normal true
  /\ exists block : Ref,
       let call := Schedule.call_submitStar sample_SHA256 sample_encode
                     sample_verify sample_parseInt "bob"
                     "bob:1700000000:starRegistry"
                     "signed:bob:1700000000:starRegistry" (JStr "Deneb")
                     1700000100123 1700000100124 sample_one_star in
       let w' := world (Schedule.drain (snd call)) in
       fst call = Fulfilled block
       /\ ~ In block (chain w')
       /\ fst (Blockchain.getStarsByWalletAddress sample_decode "bob" w')
          = fst (Blockchain.getStarsByWalletAddress sample_decode "bob"
                   (world sample_one_star)).
Proof.
  split; [exact sample_one_star_scheduled|]. split; [reflexivity|].
  split; [reflexivity|]. split; [reflexivity|]. split; [reflexivity|].
  split; [reflexivity|].
  destruct (later_star_is_resolved_but_not_stored sample_SHA256 sample_encode
              sample_decode sample_verify sample_parseInt sample_one_star
              0%nat 1%nat "bob" "bob:1700000000:starRegistry"
              "signed:bob:1700000000:starRegistry" (JStr "Deneb")
              1700000100123 1700000100124
              sample_one_star_scheduled eq_refl eq_refl eq_refl eq_refl
              eq_refl)
    as (block & Hcall & _ & Hin & _ & _ & _ & Hstars).
  exists block. cbv zeta. split; [exact Hcall|]. split; [exact Hin|].
  apply Hstars.
Defined.
